(** * MazeGameEnv: a grid-world environment (src/MazeGameEnv.py)

    The class keeps a 2-D numpy array of cell symbols, three positions
    read off the array when the object is built, the agent's current
    position and a step counter.  [reset] and [step] are embedded as
    functions on a record of those attributes; the calls that can raise
    (building the array, indexing it, opening the window, loading a
    sprite) live in a small exception monad.  [render] touches none of
    the attributes: it is embedded as a function from the calls the
    display has received to the calls it has received afterwards.  What
    pygame and the machine decide (whether a window opens, whether a
    file loads) is a parameter. *)

From Stdlib Require Import ZArith List String Bool Lia QArith SpecFloat.
Import ListNotations.
Local Open Scope Z_scope.

(** ** Python exceptions *)

Inductive exn : Type :=
| IndexError
| ValueError
| PygameError.

Inductive result (A : Type) : Type :=
| Ok (a : A)
| Raise (e : exn).

Arguments Ok {A} a.
Arguments Raise {A} e.

Definition bind {A B : Type} (m : result A) (k : A -> result B) : result B :=
  match m with
  | Ok a => k a
  | Raise e => Raise e
  end.

Notation "x <- m ;; k" := (bind m (fun x => k))
  (at level 61, m at next level, right associativity).

(** A position is an integer array of shape (2,): row first, column second. *)
Definition pos : Type := (Z * Z)%type.

(** ** The numpy operations the class uses *)

Module np.

(** A 2-D array of strings, stored row by row. *)
Definition ndarray : Type := list (list string).

Definition row_len (a : ndarray) : nat :=
  match a with
  | [] => O
  | r :: _ => List.length r
  end.

(** A fixed-width unicode array pads its strings with NUL characters
    and gives them back without the trailing ones: a cell "S" followed
    by NULs is stored, read and compared as "S". *)
Fixpoint U (s : string) : string :=
  match s with
  | EmptyString => EmptyString
  | String c rest =>
      match U rest with
      | EmptyString =>
          if Ascii.eqb c Ascii.zero then EmptyString else String c EmptyString
      | String c' rest' => String c (String c' rest')
      end
  end.

(** All rows as long as the first. *)
Definition rectangular (maze : list (list string)) : bool :=
  forallb (fun r => Nat.eqb (List.length r) (row_len maze)) maze.

(** The cells as the array stores them. *)
Definition cells (maze : list (list string)) : ndarray :=
  map (map U) maze.

(** [np.array(maze)] on a list of lists of strings.  Rows of unequal
    length are refused (ValueError, "inhomogeneous shape"). *)
Definition array (maze : list (list string)) : result ndarray :=
  if rectangular maze then Ok (cells maze) else Raise ValueError.

(** [a.shape] of a 2-D array. *)
Definition shape (a : ndarray) : Z * Z :=
  (Z.of_nat (List.length a), Z.of_nat (row_len a)).

(** The hits of [a == s] in one row, left to right, from column [c]. *)
Fixpoint argwhere_row (s : string) (r c : Z) (row : list string) : list pos :=
  match row with
  | [] => []
  | x :: xs =>
      if String.eqb x s
      then (r, c) :: argwhere_row s r (c + 1) xs
      else argwhere_row s r (c + 1) xs
  end.

Fixpoint argwhere_from (s : string) (r : Z) (a : ndarray) : list pos :=
  match a with
  | [] => []
  | row :: rest => argwhere_row s r 0 row ++ argwhere_from s (r + 1) rest
  end.

(** [np.argwhere(a == s)]: the indices of the cells equal to [s], in
    row-major order. *)
Definition argwhere (a : ndarray) (s : string) : list pos :=
  argwhere_from s 0 a.

(** [hits[0]]: the first row of the index array, IndexError when there
    is none. *)
Definition item0 (hits : list pos) : result pos :=
  match hits with
  | [] => Raise IndexError
  | p :: _ => Ok p
  end.

(** One index of [a[i, j]] along an axis of length [n]: negative
    indices count from the end, anything outside [-n, n) raises. *)
Definition index (n i : Z) : result nat :=
  if (0 <=? i) && (i <? n) then Ok (Z.to_nat i)
  else if (- n <=? i) && (i <? 0) then Ok (Z.to_nat (i + n))
  else Raise IndexError.

(** [a[row, col]]. *)
Definition getitem (a : ndarray) (row col : Z) : result string :=
  i <- index (fst (shape a)) row ;;
  j <- index (snd (shape a)) col ;;
  match nth_error a i with
  | Some r =>
      match nth_error r j with
      | Some x => Ok x
      | None => Raise IndexError
      end
  | None => Raise IndexError
  end.

(** [np.array_equal(p, q)] on two arrays of shape (2,). *)
Definition array_equal (p q : pos) : bool :=
  (fst p =? fst q) && (snd p =? snd q).

(** int64 arithmetic wraps around. *)
Definition int64 (z : Z) : Z :=
  (z + 2 ^ 63) mod 2 ^ 64 - 2 ^ 63.

(** binary32: 24 bits of precision, exponent of the infinities 128. *)
Definition float32 : Type := spec_float.

(** An integer cast to float32, rounded to nearest even. *)
Definition to_float32 (z : Z) : float32 :=
  binary_normalize 24 128 z 0 false.

(** float32 division.  As in IEEE 754 a zero divisor raises nothing:
    0/0 is NaN and x/0 an infinity (numpy only warns). *)
Definition divide (x y : float32) : float32 :=
  SFdiv 24 128 x y.

(** Membership in the closed interval [0, 1]; false on NaN. *)
Definition in_unit (x : float32) : bool :=
  SFleb (to_float32 0) x && SFleb x (to_float32 1).

End np.

(** ** The environment object *)

(** The attributes of a [MazeGameEnv].  [np_random] stands for the
    generator kept by the base class [gym.Env], recorded by the seed it
    was last given; the class never reads it.  [action_space],
    [observation_space], [cell_size] and [screen] are set once in
    [__init__]; [reset] and [step] use none of them, and [render] is
    given the last two apart from the record. *)
Record MazeGameEnv : Type := mkEnv {
  maze : np.ndarray;
  start_pos : pos;
  goal_pos : pos;
  pit_pos : pos;
  current_pos : pos;
  num_rows : Z;
  num_cols : Z;
  max_steps : Z;
  steps : Z;
  np_random : option N
}.

Definition set_current_pos (self : MazeGameEnv) (p : pos) : MazeGameEnv :=
  mkEnv (maze self) (start_pos self) (goal_pos self) (pit_pos self) p
        (num_rows self) (num_cols self) (max_steps self) (steps self)
        (np_random self).

Definition set_steps (self : MazeGameEnv) (n : Z) : MazeGameEnv :=
  mkEnv (maze self) (start_pos self) (goal_pos self) (pit_pos self)
        (current_pos self) (num_rows self) (num_cols self) (max_steps self) n
        (np_random self).

Definition set_np_random (self : MazeGameEnv) (g : option N) : MazeGameEnv :=
  mkEnv (maze self) (start_pos self) (goal_pos self) (pit_pos self)
        (current_pos self) (num_rows self) (num_cols self) (max_steps self)
        (steps self) g.

(** The metadata dictionary returned next to an observation. *)
Definition info : Type := list (string * string).

(** An observation: a float32 array of shape (2,). *)
Definition observation : Type := (np.float32 * np.float32)%type.

(** The 5-tuple returned by [step].  The reward is one of four float
    literals, kept by its decimal value. *)
Record step_result : Type := mkResult {
  obs : observation;
  reward : Q;
  terminated : bool;
  truncated : bool;
  metadata : info
}.

(** [self.cell_size], set to 125 in [__init__] and never assigned
    again. *)
Definition cell_size : Z := 125.

Section Environment.

(** [pygame.display.set_mode((width, height))] is the library's and the
    machine's business: [set_mode width height] tells whether the window
    opens; when it does not, the call raises [pygame.error].  Everything
    below holds whatever the display does. *)
Variable set_mode : Z -> Z -> bool.

(** [__init__(self, maze)].  The attributes are assigned first;
    [pygame.init()] raises nothing; the window is opened last, and a
    window that does not open leaves no object. *)
Definition __init__ (maze0 : list (list string)) : result MazeGameEnv :=
  a <- np.array maze0 ;;
  start <- np.item0 (np.argwhere a "S") ;;
  goal <- np.item0 (np.argwhere a "G") ;;
  pit <- np.item0 (np.argwhere a "P") ;;
  let self := mkEnv a start goal pit start
                    (fst (np.shape a)) (snd (np.shape a)) 200 0 None in
  if set_mode (num_cols self * cell_size) (num_rows self * cell_size)
  then Ok self
  else Raise PygameError.

(** [_get_obs(self)]: the position cast to float32, divided
    componentwise by [(num_rows - 1, num_cols - 1)] cast to float32. *)
Definition _get_obs (self : MazeGameEnv) : observation :=
  (np.divide (np.to_float32 (fst (current_pos self)))
             (np.to_float32 (num_rows self - 1)),
   np.divide (np.to_float32 (snd (current_pos self)))
             (np.to_float32 (num_cols self - 1))).

(** [super().reset(seed=seed)], the method of [gym.Env]: a seed that is
    given re-creates the generator, [None] leaves it as it is.  A seed
    is a non-negative integer, the only kind the base class takes. *)
Definition super_reset (self : MazeGameEnv) (seed : option N) : MazeGameEnv :=
  match seed with
  | Some s => set_np_random self (Some s)
  | None => self
  end.

(** [reset(self, seed=None, options=None)]; [options] is ignored. *)
Definition reset (self : MazeGameEnv) (seed : option N)
  : MazeGameEnv * (observation * info) :=
  let self := super_reset self seed in
  let self := set_current_pos self (start_pos self) in
  let self := set_steps self 0 in
  (self, (_get_obs self, [])).

(** [_is_valid_position(self, pos)]. *)
Definition _is_valid_position (self : MazeGameEnv) (p : pos) : result bool :=
  let '(row, col) := p in
  if (row <? 0) || (col <? 0) || (row >=? num_rows self) || (col >=? num_cols self)
  then Ok false
  else
    cell <- np.getitem (maze self) row col ;;
    if String.eqb cell "#" then Ok false else Ok true.

(** The first lines of [step]: [new_pos] is a fresh copy of the current
    position (so the in-place updates never reach [start_pos], which
    [current_pos] may alias), moved by the action's delta.  An action
    that matches none of the four tests leaves the copy as it is. *)
Definition new_pos (self : MazeGameEnv) (action : Z) : pos :=
  let '(row, col) := current_pos self in
  if action =? 0 then (np.int64 (row - 1), col)
  else if action =? 1 then (np.int64 (row + 1), col)
  else if action =? 2 then (row, np.int64 (col - 1))
  else if action =? 3 then (row, np.int64 (col + 1))
  else (row, col).

(** The reward and termination part of [step], on the object as it is
    after the move and the increment of [steps]. *)
Definition outcome (self : MazeGameEnv) : step_result :=
  if np.array_equal (current_pos self) (goal_pos self) then
    mkResult (_get_obs self) 1.0 true false [("reason", "Goal reached!")]%string
  else if np.array_equal (current_pos self) (pit_pos self) then
    mkResult (_get_obs self) (-1.0) true false [("reason", "Fell into death pit!")]%string
  else if steps self >=? max_steps self then
    mkResult (_get_obs self) 0.0 true true [("reason", "Time limit reached")]%string
  else
    mkResult (_get_obs self) (-0.01) false false [("reason", "Continue exploring")]%string.

(** [step(self, action)]. *)
Definition step (self : MazeGameEnv) (action : Z)
  : result (MazeGameEnv * step_result) :=
  let p := new_pos self action in
  valid <- _is_valid_position self p ;;
  let self := if valid then set_current_pos self p else self in
  let self := set_steps self (steps self + 1) in
  Ok (self, outcome self).

(** ** Driving the environment *)

(** A run of [step] calls, one per action, collecting what each call
    returns; the first exception ends the run. *)
Fixpoint run (self : MazeGameEnv) (actions : list Z)
  : result (MazeGameEnv * list step_result) :=
  match actions with
  | [] => Ok (self, [])
  | a :: rest =>
      sr <- step self a ;;
      tl <- run (fst sr) rest ;;
      Ok (fst tl, snd sr :: snd tl)
  end.

(** The objects a driver can hold: the one [__init__] builds from
    [maze0], and whatever [reset] and [step] make of it afterwards. *)
Inductive reachable (maze0 : list (list string)) : MazeGameEnv -> Prop :=
| reach_init : forall e,
    __init__ maze0 = Ok e -> reachable maze0 e
| reach_reset : forall e seed,
    reachable maze0 e -> reachable maze0 (fst (reset e seed))
| reach_step : forall e action e' r,
    reachable maze0 e -> step e action = Ok (e', r) -> reachable maze0 e'.

(** What [__init__] fixes and no method assigns again. *)
Definition same_layout (e e' : MazeGameEnv) : Prop :=
  maze e' = maze e /\
  start_pos e' = start_pos e /\
  goal_pos e' = goal_pos e /\
  pit_pos e' = pit_pos e /\
  num_rows e' = num_rows e /\
  num_cols e' = num_cols e /\
  max_steps e' = max_steps e.

(** The invariant of the reachable objects. *)
Record wf (e : MazeGameEnv) : Prop := mkWf {
  wf_array : np.rectangular (maze e) = true;
  wf_rows : num_rows e = fst (np.shape (maze e));
  wf_cols : num_cols e = snd (np.shape (maze e));
  wf_max : max_steps e = 200;
  wf_start : _is_valid_position e (start_pos e) = Ok true;
  wf_current : _is_valid_position e (current_pos e) = Ok true
}.

(** The three ways a candidate can relate to the grid: inside it,
    outside it (the four tests of [_is_valid_position]), or inside it
    on a cell holding the obstacle symbol. *)
Definition in_bounds (e : MazeGameEnv) (p : pos) : Prop :=
  0 <= fst p < num_rows e /\ 0 <= snd p < num_cols e.

Definition out_of_bounds (e : MazeGameEnv) (p : pos) : Prop :=
  fst p < 0 \/ snd p < 0 \/ fst p >= num_rows e \/ snd p >= num_cols e.

Definition on_obstacle (e : MazeGameEnv) (p : pos) : Prop :=
  in_bounds e p /\ np.getitem (maze e) (fst p) (snd p) = Ok "#"%string.

Definition off_obstacle (e : MazeGameEnv) (p : pos) : Prop :=
  exists cell,
    np.getitem (maze e) (fst p) (snd p) = Ok cell /\ cell <> "#"%string.

(** The number of cells of an array that hold the symbol [s]. *)
Definition count_cells (maze0 : list (list string)) (s : string) : nat :=
  List.length (List.filter (fun x => String.eqb x s) (List.concat maze0)).

(** The four metadata dictionaries [step] can return. *)
Definition goal_reached : info := [("reason", "Goal reached!")]%string.
Definition fell_into_pit : info := [("reason", "Fell into death pit!")]%string.
Definition time_limit : info := [("reason", "Time limit reached")]%string.
Definition continue_exploring : info := [("reason", "Continue exploring")]%string.

(** ** Concrete grids *)

(** A display that opens any window of up to 16384 pixels a side. *)
Definition sdl (width height : Z) : bool :=
  (width <=? 16384) && (height <=? 16384).

(** The 3x3 grid of the specification's scenario. *)
Definition grid3 : list (list string) :=
  [["S"; "#"; "G"]; [" "; " "; " "]; [" "; "P"; " "]]%string.

Definition env3 : MazeGameEnv :=
  mkEnv grid3 (0, 0) (0, 2) (2, 1) (0, 0) 3 3 200 0 None.

(** 196 moves up against the top wall, then down, right, right, up:
    the goal is entered on the 200th call. *)
Definition late_goal_actions : list Z :=
  repeat 0 196 ++ [1; 3; 3; 0].

(** A grid with a single row. *)
Definition grid_one_row : list (list string) :=
  [["S"; "G"; "P"]]%string.

Definition env_one_row : MazeGameEnv :=
  mkEnv grid_one_row (0, 0) (0, 1) (0, 2) (0, 0) 1 3 200 0 None.

(** A single row whose start cell is padded with a NUL character. *)
Definition grid_padded_start : list (list string) :=
  [[("S" ++ String Ascii.zero EmptyString)%string; "G"%string; "P"%string]].

(** A single row of 132 cells: a window of 16500 pixels. *)
Definition grid_wide : list (list string) :=
  [["S"; "G"; "P"]%string ++ repeat " "%string 129].

(** A grid with two start cells. *)
Definition grid_two_starts : list (list string) :=
  [["S"; " "; "G"]; [" "; "S"; "P"]]%string.

Definition env_two_starts : MazeGameEnv :=
  mkEnv grid_two_starts (0, 0) (0, 2) (1, 2) (0, 0) 2 3 200 0 None.

(** The row and column deltas of the four actions of the action space;
    any other value has none. *)
Definition delta (action : Z) : Z * Z :=
  if action =? 0 then (-1, 0)
  else if action =? 1 then (1, 0)
  else if action =? 2 then (0, -1)
  else if action =? 3 then (0, 1)
  else (0, 0).

(** One component of an observation, as [_get_obs] computes it from a
    coordinate [p] and a divisor [d], tested against [0, 1]. *)
Definition unit_component (p d : Z) : bool :=
  np.in_unit (np.divide (np.to_float32 p) (np.to_float32 d)).

(** The test above on every divisor from 1 to [n] and every coordinate
    from 0 to the divisor. *)
Definition unit_upto (n : nat) : bool :=
  forallb (fun d =>
             forallb (fun p => unit_component (Z.of_nat p) (Z.of_nat d))
                     (seq 0 (S d)))
          (seq 1 n).

(** Row-major order on positions: the order in which [np.argwhere]
    lists its hits. *)
Definition row_major_le (p q : pos) : Prop :=
  fst p < fst q \/ (fst p = fst q /\ snd p <= snd q).

(** The action that undoes a move: up and down, left and right. *)
Definition opposite (action : Z) : Z :=
  if action =? 0 then 1
  else if action =? 1 then 0
  else if action =? 2 then 3
  else if action =? 3 then 2
  else action.

(** The scenario grid's object after down, right, right, up: the agent
    stands on the goal. *)
Definition env3_at_goal : MazeGameEnv :=
  mkEnv grid3 (0, 0) (0, 2) (2, 1) (0, 2) 3 3 200 4 None.

(** ** Rendering *)

(** The five sprites [render] loads, and the file each comes from. *)
Inductive image : Type :=
| obstacle_img
| start_img
| goal_img
| pit_img
| agent_img.

Definition image_path (i : image) : string :=
  match i with
  | obstacle_img => "utils/obstacle.png"
  | start_img => "utils/start.png"
  | goal_img => "utils/goal.png"
  | pit_img => "utils/fire.png"
  | agent_img => "utils/spider.png"
  end.

(** The order in which the try block of [render] loads them. *)
Definition load_order : list image :=
  [obstacle_img; start_img; goal_img; pit_img; agent_img].

(** The calls that reach the display, in the order they are made:
    [screen.fill((r, g, b))], [screen.blit(img, (left, top))] and
    [pygame.display.update()]. *)
Inductive draw : Type :=
| Fill (r g b : Z)
| Blit (i : image) (left top : Z)
| Update.

(** [range(n)]. *)
Definition range (n : Z) : list Z :=
  map Z.of_nat (seq 0 (Z.to_nat n)).

(** What loading one sprite does: [pygame.image.load] returns a
    surface (which [pygame.transform.scale] then resizes), raises
    FileNotFoundError, or raises something else ([pygame.error] for a
    file that is no image).  Which one is the file system's and the
    library's business. *)
Inductive load_outcome : Type :=
| Loaded
| FileNotFound
| LoadFailed.

(** The try block: the sprites are loaded in order, and the first load
    that raises ends the block. *)
Fixpoint first_failure (load : string -> load_outcome) (imgs : list image)
  : option (image * load_outcome) :=
  match imgs with
  | [] => None
  | i :: rest =>
      match load (image_path i) with
      | Loaded => first_failure load rest
      | o => Some (i, o)
      end
  end.

(** The if/elif chain of the drawing loop: the sprite of a cell symbol,
    none for any other symbol. *)
Definition tile_image (cell : string) : option image :=
  if String.eqb cell "#" then Some obstacle_img
  else if String.eqb cell "S" then Some start_img
  else if String.eqb cell "G" then Some goal_img
  else if String.eqb cell "P" then Some pit_img
  else None.

(** The body of the inner loop for a cell holding [cell]: the tile, if
    any, then the agent if it stands there. *)
Definition cell_draws (self : MazeGameEnv) (row col : Z) (cell : string)
  : list draw :=
  let cell_left := col * cell_size in
  let cell_top := row * cell_size in
  match tile_image cell with
  | Some img => [Blit img cell_left cell_top]
  | None => []
  end ++
  (if np.array_equal (current_pos self) (row, col)
   then [Blit agent_img cell_left cell_top]
   else []).

(** One pass of the inner loop body; the chain reads [self.maze[row,
    col]] once per test, always the same cell. *)
Definition render_cell (self : MazeGameEnv) (row col : Z) : result (list draw) :=
  cell <- np.getitem (maze self) row col ;;
  Ok (cell_draws self row col cell).

(** [for col in range(self.num_cols)], over the columns left. *)
Fixpoint render_cols (self : MazeGameEnv) (row : Z) (cols : list Z)
  : result (list draw) :=
  match cols with
  | [] => Ok []
  | col :: rest =>
      d <- render_cell self row col ;;
      ds <- render_cols self row rest ;;
      Ok (d ++ ds)
  end.

(** [for row in range(self.num_rows)], over the rows left. *)
Fixpoint render_rows (self : MazeGameEnv) (rows : list Z) : result (list draw) :=
  match rows with
  | [] => Ok []
  | row :: rest =>
      d <- render_cols self row (range (num_cols self)) ;;
      ds <- render_rows self rest ;;
      Ok (d ++ ds)
  end.

(** [render(self)].  [screen] is the list of calls [self.screen] and
    the display have received so far, and [alive] tells whether the
    display surface can still be drawn on ([pygame.quit()], which
    [close] calls, ends that).  The handler of the try block catches
    FileNotFoundError only: it prints its message and returns, and the
    result then names the sprite whose file was not found; any other
    exception of a load leaves [render].  On a surface that is no
    longer alive the first call on it, [fill], raises [pygame.error]. *)
Definition render (load : string -> load_outcome) (alive : bool)
  (self : MazeGameEnv) (screen : list draw)
  : result (list draw * option image) :=
  match first_failure load load_order with
  | Some (i, FileNotFound) => Ok (screen, Some i)
  | Some (_, _) => Raise PygameError
  | None =>
      if alive then
        ds <- render_rows self (range (num_rows self)) ;;
        Ok (screen ++ Fill 255 255 255 :: ds ++ [Update], None)
      else Raise PygameError
  end.

(** The cell at an index, for statements; "" where the index raises. *)
Definition cell_at (self : MazeGameEnv) (row col : Z) : string :=
  match np.getitem (maze self) row col with
  | Ok cell => cell
  | Raise _ => ""
  end.

Definition is_agent_blit (d : draw) : bool :=
  match d with
  | Blit agent_img _ _ => true
  | _ => false
  end.

(** * Properties *)

(** ** The exception monad *)

Lemma bind_Ok {A B : Type} (m : result A) (k : A -> result B) (b : B) :
  bind m k = Ok b -> exists a, m = Ok a /\ k a = Ok b.
Proof.
  destruct m as [a|x]; simpl; intros H; [exists a; auto | discriminate].
Qed.

(** ** Arrays *)

Lemma array_Ok_iff (m : list (list string)) :
  np.rectangular m = true <->
  Forall (fun r => List.length r = np.row_len m) m.
Proof.
  unfold np.rectangular. rewrite forallb_forall, Forall_forall.
  split; intros H r Hr; apply Nat.eqb_eq, H, Hr.
Qed.

(** The stored cells have the shape of the grid they come from. *)
Lemma cells_rectangular (m : list (list string)) :
  np.rectangular m = true -> np.rectangular (np.cells m) = true.
Proof.
  rewrite !array_Ok_iff. unfold np.cells. intros H.
  apply Forall_forall. intros r Hr. apply in_map_iff in Hr.
  destruct Hr as (r0 & <- & Hr0). rewrite length_map.
  rewrite Forall_forall in H. rewrite (H r0 Hr0).
  destruct m; simpl; [reflexivity|]. rewrite length_map. reflexivity.
Qed.

Lemma cells_shape (m : list (list string)) :
  np.shape (np.cells m) = np.shape m.
Proof.
  unfold np.shape, np.cells. rewrite length_map.
  destruct m; simpl; [reflexivity|]. rewrite length_map. reflexivity.
Qed.

Lemma array_Ok (m : list (list string)) (a : np.ndarray) :
  np.array m = Ok a ->
  a = np.cells m /\ np.rectangular m = true /\ np.rectangular a = true.
Proof.
  unfold np.array. destruct (np.rectangular m) eqn:E; [|discriminate].
  intros H; injection H as <-. split; [reflexivity|]. split; [reflexivity|].
  apply cells_rectangular, E.
Qed.

Lemma index_in_range (n i : Z) :
  0 <= i < n -> np.index n i = Ok (Z.to_nat i).
Proof.
  intros H. unfold np.index.
  replace (0 <=? i) with true by (symmetry; apply Z.leb_le; lia).
  replace (i <? n) with true by (symmetry; apply Z.ltb_lt; lia).
  reflexivity.
Qed.

(** Inside the shape, indexing a rectangular array reads the cell and
    raises nothing. *)
Lemma getitem_in_range (a : np.ndarray) (row col : Z) :
  np.rectangular a = true ->
  0 <= row < fst (np.shape a) ->
  0 <= col < snd (np.shape a) ->
  exists r x,
    nth_error a (Z.to_nat row) = Some r /\
    nth_error r (Z.to_nat col) = Some x /\
    np.getitem a row col = Ok x.
Proof.
  intros Ha Hr Hc. apply array_Ok_iff in Ha.
  unfold np.getitem. rewrite (index_in_range _ _ Hr), (index_in_range _ _ Hc).
  simpl in *.
  destruct (nth_error a (Z.to_nat row)) as [r|] eqn:Er.
  - assert (Hlen : List.length r = np.row_len a).
    { rewrite Forall_forall in Ha. apply Ha. eapply nth_error_In; eauto. }
    destruct (nth_error r (Z.to_nat col)) as [x|] eqn:Ex.
    + exists r, x. auto.
    + apply nth_error_None in Ex. lia.
  - apply nth_error_None in Er. lia.
Qed.

(** Every hit of [argwhere_row] is a column of the row holding [s]. *)
Lemma argwhere_row_In (s : string) (r : Z) (row : list string) :
  forall c p,
    In p (np.argwhere_row s r c row) ->
    fst p = r /\ c <= snd p /\
    nth_error row (Z.to_nat (snd p - c)) = Some s.
Proof.
  induction row as [|x xs IH]; intros c p Hin; simpl in Hin; [contradiction|].
  assert (Htail : In p (np.argwhere_row s r (c + 1) xs) ->
                  fst p = r /\ c <= snd p /\
                  nth_error (x :: xs) (Z.to_nat (snd p - c)) = Some s).
  { intros H. destruct (IH _ _ H) as (H1 & H2 & H3).
    split; [assumption|]. split; [lia|].
    replace (Z.to_nat (snd p - c)) with (S (Z.to_nat (snd p - (c + 1)))) by lia.
    exact H3. }
  destruct (String.eqb_spec x s) as [->|Hne].
  - destruct Hin as [<-|Hin]; [|auto].
    simpl. rewrite Z.sub_diag. split; [reflexivity|]. split; [lia|reflexivity].
  - auto.
Qed.

Lemma argwhere_from_In (s : string) (a : np.ndarray) :
  forall r p,
    In p (np.argwhere_from s r a) ->
    r <= fst p /\ 0 <= snd p /\
    exists row,
      nth_error a (Z.to_nat (fst p - r)) = Some row /\
      nth_error row (Z.to_nat (snd p)) = Some s.
Proof.
  induction a as [|row rest IH]; intros r p Hin; simpl in Hin; [contradiction|].
  apply in_app_or in Hin. destruct Hin as [Hin|Hin].
  - destruct (argwhere_row_In _ _ _ _ _ Hin) as (H1 & H2 & H3).
    split; [lia|]. split; [lia|]. exists row.
    rewrite H1, Z.sub_diag. rewrite Z.sub_0_r in H3. auto.
  - destruct (IH _ _ Hin) as (H1 & H2 & row' & H3 & H4).
    split; [lia|]. split; [lia|]. exists row'.
    replace (Z.to_nat (fst p - r)) with (S (Z.to_nat (fst p - (r + 1)))) by lia.
    auto.
Qed.

(** A hit of [np.argwhere(a == s)] lies inside the shape of [a], and
    indexing [a] there gives [s]. *)
Lemma argwhere_hit (a : np.ndarray) (s : string) (p : pos) :
  np.rectangular a = true ->
  In p (np.argwhere a s) ->
  0 <= fst p < fst (np.shape a) /\
  0 <= snd p < snd (np.shape a) /\
  np.getitem a (fst p) (snd p) = Ok s.
Proof.
  intros Ha Hin.
  destruct (argwhere_from_In _ _ _ _ Hin) as (H1 & H2 & row & H3 & H4).
  rewrite Z.sub_0_r in H3.
  assert (Hr : 0 <= fst p < fst (np.shape a)).
  { simpl. assert (Z.to_nat (fst p) < List.length a)%nat
      by (apply nth_error_Some; congruence). lia. }
  assert (Hc : 0 <= snd p < snd (np.shape a)).
  { simpl. pose proof Ha as Hrect. apply array_Ok_iff in Hrect.
    rewrite Forall_forall in Hrect.
    rewrite <- (Hrect row) by (eapply nth_error_In; eauto).
    assert (Z.to_nat (snd p) < List.length row)%nat
      by (apply nth_error_Some; congruence). lia. }
  split; [assumption|]. split; [assumption|].
  destruct (getitem_in_range a _ _ Ha Hr Hc) as (r' & x & E1 & E2 & E3).
  congruence.
Qed.

Lemma item0_In (hits : list pos) (p : pos) :
  np.item0 hits = Ok p -> In p hits.
Proof.
  destruct hits; simpl; [discriminate|]. intros H; injection H as ->. now left.
Qed.

Lemma array_equal_true (p q : pos) :
  np.array_equal p q = true <-> p = q.
Proof.
  unfold np.array_equal. destruct p, q; simpl.
  rewrite andb_true_iff, !Z.eqb_eq. split; [intros [-> ->]|intros [= -> ->]]; auto.
Qed.

Lemma array_equal_false (p q : pos) :
  np.array_equal p q = false <-> p <> q.
Proof.
  rewrite <- array_equal_true. destruct (np.array_equal p q); split; congruence.
Qed.

(** ** The validity check *)

(** The check reads only the array and the two dimensions. *)
Lemma valid_layout (e e' : MazeGameEnv) (p : pos) :
  maze e' = maze e -> num_rows e' = num_rows e -> num_cols e' = num_cols e ->
  _is_valid_position e' p = _is_valid_position e p.
Proof.
  intros Hm Hr Hc. unfold _is_valid_position. destruct p as [row col].
  rewrite Hm, Hr, Hc. reflexivity.
Qed.

Lemma bounds_test_true (e : MazeGameEnv) (row col : Z) :
  (row <? 0) || (col <? 0) || (row >=? num_rows e) || (col >=? num_cols e) = true
  <-> out_of_bounds e (row, col).
Proof.
  unfold out_of_bounds. simpl.
  rewrite !orb_true_iff, !Z.ltb_lt, !Z.geb_le. lia.
Qed.

Lemma bounds_test_false (e : MazeGameEnv) (row col : Z) :
  (row <? 0) || (col <? 0) || (row >=? num_rows e) || (col >=? num_cols e) = false
  <-> in_bounds e (row, col).
Proof.
  unfold in_bounds. simpl.
  rewrite !orb_false_iff, !Z.ltb_ge, !Z.geb_leb, !Z.leb_gt. lia.
Qed.

Lemma valid_out_of_bounds (e : MazeGameEnv) (p : pos) :
  out_of_bounds e p -> _is_valid_position e p = Ok false.
Proof.
  destruct p as [row col]. intros H. unfold _is_valid_position.
  apply bounds_test_true in H. rewrite H. reflexivity.
Qed.

Lemma valid_on_obstacle (e : MazeGameEnv) (p : pos) :
  on_obstacle e p -> _is_valid_position e p = Ok false.
Proof.
  destruct p as [row col]. intros [Hb Hc]. unfold _is_valid_position.
  apply bounds_test_false in Hb. rewrite Hb. simpl in Hc. rewrite Hc.
  reflexivity.
Qed.

(** An accepted position is inside the grid, on a cell that is read
    without error and is not the obstacle symbol. *)
Lemma valid_true (e : MazeGameEnv) (p : pos) :
  _is_valid_position e p = Ok true -> in_bounds e p /\ off_obstacle e p.
Proof.
  destruct p as [row col]. unfold _is_valid_position.
  destruct (_ || _) eqn:Hb; [discriminate|].
  apply bounds_test_false in Hb. intros H.
  apply bind_Ok in H. destruct H as (cell & Hc & H).
  split; [assumption|]. exists cell. split; [exact Hc|].
  destruct (String.eqb_spec cell "#"); [discriminate|assumption].
Qed.

(** On an object whose dimensions are those of its rectangular array,
    the check answers for every position: the index it computes never
    leaves the array. *)
Lemma valid_total (e : MazeGameEnv) (p : pos) :
  wf e -> exists b, _is_valid_position e p = Ok b.
Proof.
  intros W. destruct p as [row col]. unfold _is_valid_position.
  destruct (_ || _) eqn:Hb; [eauto|].
  apply bounds_test_false in Hb. destruct Hb as [Hr Hc]. simpl in Hr, Hc.
  rewrite (wf_rows e W) in Hr. rewrite (wf_cols e W) in Hc.
  destruct (getitem_in_range _ _ _ (wf_array e W) Hr Hc) as (r & x & _ & _ & E).
  rewrite E. simpl. destruct (String.eqb x "#"); eauto.
Qed.

(** ** The invariant *)

Lemma init_Ok (maze0 : list (list string)) (e : MazeGameEnv) :
  __init__ maze0 = Ok e ->
  exists start goal pit,
    np.rectangular maze0 = true /\
    np.rectangular (np.cells maze0) = true /\
    np.item0 (np.argwhere (np.cells maze0) "S") = Ok start /\
    np.item0 (np.argwhere (np.cells maze0) "G") = Ok goal /\
    np.item0 (np.argwhere (np.cells maze0) "P") = Ok pit /\
    set_mode (snd (np.shape (np.cells maze0)) * cell_size)
             (fst (np.shape (np.cells maze0)) * cell_size) = true /\
    e = mkEnv (np.cells maze0) start goal pit start
              (fst (np.shape (np.cells maze0)))
              (snd (np.shape (np.cells maze0))) 200 0 None.
Proof.
  unfold __init__. intros H.
  apply bind_Ok in H. destruct H as (a & Ha & H).
  destruct (array_Ok _ _ Ha) as (-> & Hrect & Hrect').
  apply bind_Ok in H. destruct H as (start & Hs & H).
  apply bind_Ok in H. destruct H as (goal & Hg & H).
  apply bind_Ok in H. destruct H as (pit & Hp & H).
  cbn [num_rows num_cols] in H.
  destruct (set_mode _ _) eqn:Ew; [|discriminate].
  injection H as <-. exists start, goal, pit. auto 10.
Qed.

Lemma init_wf (maze0 : list (list string)) (e : MazeGameEnv) :
  __init__ maze0 = Ok e -> wf e.
Proof.
  intros H.
  destruct (init_Ok _ _ H)
    as (start & goal & pit & _ & Ha & Hs & _ & _ & _ & ->).
  assert (Hv : _is_valid_position
                 (mkEnv (np.cells maze0) start goal pit start
                        (fst (np.shape (np.cells maze0)))
                        (snd (np.shape (np.cells maze0))) 200 0 None)
                 start = Ok true).
  { destruct (argwhere_hit _ _ _ Ha (item0_In _ _ Hs)) as (Hr & Hc & Hcell).
    destruct start as [row col]. unfold _is_valid_position.
    replace (_ || _) with false
      by (symmetry; apply bounds_test_false; split; assumption).
    cbn [maze]. cbn [fst snd] in Hcell. rewrite Hcell. reflexivity. }
  constructor; auto.
Qed.

Lemma reset_wf (e : MazeGameEnv) (seed : option N) :
  wf e -> wf (fst (reset e seed)).
Proof.
  intros [Ha Hr Hc Hm Hs _].
  destruct seed; constructor; simpl; auto.
Qed.

(** [step] on a well-formed object: the check answers [b], the position
    becomes the candidate when [b] holds, and the call returns. *)
Lemma step_wf_Ok (e : MazeGameEnv) (action : Z) :
  wf e ->
  exists b,
    _is_valid_position e (new_pos e action) = Ok b /\
    step e action =
      Ok (set_steps (if b then set_current_pos e (new_pos e action) else e)
                    (steps (if b then set_current_pos e (new_pos e action) else e) + 1),
          outcome (set_steps (if b then set_current_pos e (new_pos e action) else e)
                    (steps (if b then set_current_pos e (new_pos e action) else e) + 1))).
Proof.
  intros W. destruct (valid_total e (new_pos e action) W) as [b Hb].
  exists b. split; [assumption|]. unfold step. rewrite Hb. reflexivity.
Qed.

Lemma step_wf (e e' : MazeGameEnv) (action : Z) (r : step_result) :
  wf e -> step e action = Ok (e', r) -> wf e'.
Proof.
  intros W H. destruct (step_wf_Ok e action W) as (b & Hb & E).
  rewrite E in H. injection H as <- _.
  destruct W as [Ha Hr Hc Hm Hs Hcur].
  destruct b; constructor; simpl; auto.
Qed.

Lemma reachable_wf (maze0 : list (list string)) (e : MazeGameEnv) :
  reachable maze0 e -> wf e.
Proof.
  induction 1 as [e H|e seed _ IH|e action e' r _ IH H].
  - eapply init_wf; eauto.
  - apply reset_wf, IH.
  - eapply step_wf; eauto.
Qed.

(** ** What never changes *)

Lemma same_layout_refl (e : MazeGameEnv) : same_layout e e.
Proof. repeat split. Qed.

Lemma same_layout_trans (e1 e2 e3 : MazeGameEnv) :
  same_layout e1 e2 -> same_layout e2 e3 -> same_layout e1 e3.
Proof.
  unfold same_layout. intros (A1 & A2 & A3 & A4 & A5 & A6 & A7)
                             (B1 & B2 & B3 & B4 & B5 & B6 & B7).
  repeat split; congruence.
Qed.

Lemma reset_layout (e : MazeGameEnv) (seed : option N) :
  same_layout e (fst (reset e seed)).
Proof. destruct seed; repeat split. Qed.

Lemma step_layout (e e' : MazeGameEnv) (action : Z) (r : step_result) :
  step e action = Ok (e', r) -> same_layout e e'.
Proof.
  unfold step. intros H. apply bind_Ok in H. destruct H as (b & _ & H).
  injection H as <- _. destruct b; repeat split.
Qed.

Lemma reachable_layout (maze0 : list (list string)) (e0 e : MazeGameEnv) :
  __init__ maze0 = Ok e0 -> reachable maze0 e -> same_layout e0 e.
Proof.
  intros H0. induction 1 as [e H|e seed _ IH|e action e' r _ IH H].
  - rewrite H0 in H. injection H as <-. apply same_layout_refl.
  - eapply same_layout_trans; [exact IH | apply reset_layout].
  - eapply same_layout_trans; [exact IH | eapply step_layout; eauto].
Qed.

(** ** The outcome of a step *)

Lemma outcome_goal (e : MazeGameEnv) :
  current_pos e = goal_pos e ->
  outcome e = mkResult (_get_obs e) 1.0 true false goal_reached.
Proof.
  intros H. unfold outcome.
  rewrite (proj2 (array_equal_true _ _) H). reflexivity.
Qed.

Lemma outcome_pit (e : MazeGameEnv) :
  current_pos e <> goal_pos e -> current_pos e = pit_pos e ->
  outcome e = mkResult (_get_obs e) (-1.0) true false fell_into_pit.
Proof.
  intros Hg Hp. unfold outcome.
  rewrite (proj2 (array_equal_false _ _) Hg).
  rewrite (proj2 (array_equal_true _ _) Hp). reflexivity.
Qed.

Lemma outcome_time_limit (e : MazeGameEnv) :
  current_pos e <> goal_pos e -> current_pos e <> pit_pos e ->
  steps e >= max_steps e ->
  outcome e = mkResult (_get_obs e) 0.0 true true time_limit.
Proof.
  intros Hg Hp Hs. unfold outcome.
  rewrite (proj2 (array_equal_false _ _) Hg).
  rewrite (proj2 (array_equal_false _ _) Hp).
  replace (steps e >=? max_steps e) with true
    by (symmetry; rewrite Z.geb_leb; apply Z.leb_le; lia).
  reflexivity.
Qed.

Lemma outcome_continue (e : MazeGameEnv) :
  current_pos e <> goal_pos e -> current_pos e <> pit_pos e ->
  steps e < max_steps e ->
  outcome e = mkResult (_get_obs e) (-0.01) false false continue_exploring.
Proof.
  intros Hg Hp Hs. unfold outcome.
  rewrite (proj2 (array_equal_false _ _) Hg).
  rewrite (proj2 (array_equal_false _ _) Hp).
  replace (steps e >=? max_steps e) with false
    by (symmetry; rewrite Z.geb_leb; apply Z.leb_gt; lia).
  reflexivity.
Qed.

(** A call of [step] on a reachable object returns; the object it
    leaves has one more step, the same layout and the same generator,
    and what it returns is the outcome computed on that object. *)
Lemma step_reachable (maze0 : list (list string)) (e : MazeGameEnv) (action : Z) :
  reachable maze0 e ->
  exists e' b,
    step e action = Ok (e', outcome e') /\
    _is_valid_position e (new_pos e action) = Ok b /\
    current_pos e' = (if b then new_pos e action else current_pos e) /\
    steps e' = steps e + 1 /\
    max_steps e' = 200 /\
    np_random e' = np_random e /\
    same_layout e e'.
Proof.
  intros R. pose proof (reachable_wf _ _ R) as W.
  destruct (step_wf_Ok e action W) as (b & Hb & E).
  eexists; exists b. split; [exact E|]. split; [exact Hb|].
  pose proof (wf_max e W) as Hm.
  destruct b; simpl; repeat split; auto.
Qed.

(** ** Claims *)

(** C1.  On every reachable object and for every action (the four
    valid ones in particular) [step] returns, and its outcome is decided
    by priority on the position after the move: the goal gives reward
    1.0, terminated, not truncated, "Goal reached!"; otherwise the pit
    gives -1.0, terminated, not truncated, "Fell into death pit!";
    otherwise a step count of 200 or more gives 0.0, terminated,
    truncated, "Time limit reached"; otherwise -0.01, neither flag,
    "Continue exploring".  The goal case carries no condition on the
    step count, so it holds on the 200th step as well. *)
Theorem step_outcome_priority
  (maze0 : list (list string)) (e : MazeGameEnv) (action : Z) :
  reachable maze0 e ->
  exists e' r,
    step e action = Ok (e', r) /\
    (current_pos e' = goal_pos e' ->
       reward r = 1.0%Q /\ terminated r = true /\ truncated r = false /\
       metadata r = goal_reached) /\
    (current_pos e' <> goal_pos e' -> current_pos e' = pit_pos e' ->
       reward r = (-1.0)%Q /\ terminated r = true /\ truncated r = false /\
       metadata r = fell_into_pit) /\
    (current_pos e' <> goal_pos e' -> current_pos e' <> pit_pos e' ->
     steps e' >= 200 ->
       reward r = 0.0%Q /\ terminated r = true /\ truncated r = true /\
       metadata r = time_limit) /\
    (current_pos e' <> goal_pos e' -> current_pos e' <> pit_pos e' ->
     steps e' < 200 ->
       reward r = (-0.01)%Q /\ terminated r = false /\ truncated r = false /\
       metadata r = continue_exploring) /\
    (steps e = 199 -> current_pos e' = goal_pos e' ->
       steps e' = 200 /\ reward r = 1.0%Q /\ truncated r = false).
Proof.
  intros R.
  destruct (step_reachable maze0 e action R)
    as (e' & b & E & _ & _ & Hs & Hm & _ & _).
  exists e', (outcome e'). split; [exact E|].
  split; [|split; [|split; [|split]]].
  - intros Hg. rewrite (outcome_goal e' Hg). simpl. auto.
  - intros Hg Hp. rewrite (outcome_pit e' Hg Hp). simpl. auto.
  - intros Hg Hp Hn. rewrite (outcome_time_limit e' Hg Hp) by lia. simpl. auto.
  - intros Hg Hp Hn. rewrite (outcome_continue e' Hg Hp) by lia. simpl. auto.
  - intros Hn Hg. rewrite (outcome_goal e' Hg). simpl. split; [lia|auto].
Qed.

(** C3.  From a position that is neither the goal nor the pit, a step
    whose candidate lies outside the grid or on an obstacle cell leaves
    the position where it was and still counts as a step.  Short of the
    200th step it returns -0.01 and "Continue exploring"; on that step
    the time limit takes over. *)
Theorem blocked_move_absorbed
  (maze0 : list (list string)) (e : MazeGameEnv) (action : Z) :
  reachable maze0 e ->
  current_pos e <> goal_pos e ->
  current_pos e <> pit_pos e ->
  out_of_bounds e (new_pos e action) \/ on_obstacle e (new_pos e action) ->
  exists e' r,
    step e action = Ok (e', r) /\
    current_pos e' = current_pos e /\
    steps e' = steps e + 1 /\
    (steps e + 1 < 200 ->
       reward r = (-0.01)%Q /\ terminated r = false /\ truncated r = false /\
       metadata r = continue_exploring) /\
    (steps e + 1 >= 200 ->
       reward r = 0.0%Q /\ terminated r = true /\ truncated r = true /\
       metadata r = time_limit).
Proof.
  intros R Hg Hp Hblocked.
  destruct (step_reachable maze0 e action R)
    as (e' & b & E & Hb & Hcur & Hs & Hm & _ & L).
  assert (b = false) as ->.
  { destruct Hblocked as [H|H];
      [rewrite (valid_out_of_bounds _ _ H) in Hb
      |rewrite (valid_on_obstacle _ _ H) in Hb]; congruence. }
  destruct L as (_ & _ & Lg & Lp & _).
  assert (Hg' : current_pos e' <> goal_pos e') by congruence.
  assert (Hp' : current_pos e' <> pit_pos e') by congruence.
  exists e', (outcome e'). repeat (split; [assumption|]). split.
  - intros Hn. rewrite (outcome_continue e' Hg' Hp') by lia. simpl. auto.
  - intros Hn. rewrite (outcome_time_limit e' Hg' Hp') by lia. simpl. auto.
Qed.

(** C7.  An action outside {0, 1, 2, 3} moves nothing: the candidate is
    the current position, [step] raises nothing, the position stays, the
    step is counted, and the outcome is computed as for any other
    step. *)
Theorem unknown_action_moves_nothing
  (maze0 : list (list string)) (e : MazeGameEnv) (action : Z) :
  reachable maze0 e ->
  ~ (0 <= action <= 3) ->
  new_pos e action = current_pos e /\
  exists e' r,
    step e action = Ok (e', r) /\
    current_pos e' = current_pos e /\
    steps e' = steps e + 1 /\
    r = outcome e'.
Proof.
  intros R Ha.
  assert (Hnew : new_pos e action = current_pos e).
  { unfold new_pos. destruct (current_pos e) as [row col].
    destruct (Z.eqb_spec action 0); [lia|].
    destruct (Z.eqb_spec action 1); [lia|].
    destruct (Z.eqb_spec action 2); [lia|].
    destruct (Z.eqb_spec action 3); [lia|reflexivity]. }
  split; [exact Hnew|].
  destruct (step_reachable maze0 e action R)
    as (e' & b & E & _ & Hcur & Hs & _).
  exists e', (outcome e'). split; [exact E|]. split.
  - rewrite Hcur, Hnew. destruct b; reflexivity.
  - split; [exact Hs|reflexivity].
Qed.

(** C8.  The array, the three positions read off it, the two
    dimensions and the step ceiling are those [__init__] set, on every
    reachable object; [reset] and [step] leave each of them as it was
    ([step] leaves the generator alone too), so only the current
    position and the step count ever change. *)
Theorem layout_never_changes
  (maze0 : list (list string)) (e0 e : MazeGameEnv) :
  __init__ maze0 = Ok e0 ->
  reachable maze0 e ->
  (maze e = maze e0 /\ start_pos e = start_pos e0 /\ goal_pos e = goal_pos e0 /\
   pit_pos e = pit_pos e0 /\ num_rows e = num_rows e0 /\
   num_cols e = num_cols e0 /\ max_steps e = max_steps e0) /\
  (forall seed, same_layout e (fst (reset e seed))) /\
  (forall action, exists e' r,
      step e action = Ok (e', r) /\ same_layout e e' /\ np_random e' = np_random e).
Proof.
  intros H0 R. split; [exact (reachable_layout _ _ _ H0 R)|]. split.
  - intros seed. apply reset_layout.
  - intros action.
    destruct (step_reachable maze0 e action R) as (e' & b & E & _ & _ & _ & _ & Hg & L).
    exists e', (outcome e'). auto.
Qed.

(** C9.  On every reachable object the start position is inside the
    grid on a cell that is not an obstacle (the cell holds "S"), and so
    is the current position, whatever resets and steps, with whatever
    integer actions, led there: a step either keeps the position or
    moves it to a candidate the validity check accepted. *)
Theorem current_position_always_valid
  (maze0 : list (list string)) (e : MazeGameEnv) :
  reachable maze0 e ->
  (in_bounds e (start_pos e) /\ off_obstacle e (start_pos e)) /\
  (in_bounds e (current_pos e) /\ off_obstacle e (current_pos e)) /\
  (forall action, exists e' r,
      step e action = Ok (e', r) /\
      (current_pos e' = current_pos e \/
       current_pos e' = new_pos e action /\
       _is_valid_position e (new_pos e action) = Ok true)).
Proof.
  intros R. pose proof (reachable_wf _ _ R) as W. split; [|split].
  - apply valid_true, (wf_start e W).
  - apply valid_true, (wf_current e W).
  - intros action.
    destruct (step_reachable maze0 e action R) as (e' & b & E & Hb & Hcur & _).
    exists e', (outcome e'). split; [exact E|].
    destruct b; [right|left]; auto.
Qed.

(** C6.  Whatever calls came before, [reset] puts the current position
    back on the start position found by [__init__] and the step count on
    0, and returns that start position divided componentwise, in
    float32, by (num_rows - 1, num_cols - 1), with an empty
    dictionary. *)
Theorem reset_restores_start
  (maze0 : list (list string)) (e0 e : MazeGameEnv) (seed : option N) :
  __init__ maze0 = Ok e0 ->
  reachable maze0 e ->
  current_pos (fst (reset e seed)) = start_pos e0 /\
  steps (fst (reset e seed)) = 0 /\
  fst (snd (reset e seed)) =
    (np.divide (np.to_float32 (fst (start_pos e0))) (np.to_float32 (num_rows e0 - 1)),
     np.divide (np.to_float32 (snd (start_pos e0))) (np.to_float32 (num_cols e0 - 1))) /\
  snd (snd (reset e seed)) = [].
Proof.
  intros H0 R.
  destruct (reachable_layout _ _ _ H0 R) as (_ & Hs & _ & _ & Hr & Hc & _).
  rewrite <- Hs, <- Hr, <- Hc. destruct seed; repeat split.
Qed.

(** C10.  Two calls of [reset] in a row, with the same seed argument,
    return the same observation and the same dictionary, which is the
    empty one; the object is the same after the second call as after
    the first. *)
Theorem reset_twice_same (e : MazeGameEnv) (seed : option N) :
  snd (reset (fst (reset e seed)) seed) = snd (reset e seed) /\
  snd (snd (reset e seed)) = [] /\
  fst (reset (fst (reset e seed)) seed) = fst (reset e seed).
Proof. destruct seed; repeat split. Qed.

(** ** Runs of steps *)

(** A step that is neither a goal nor a pit outcome, taken when the
    count has reached the ceiling, is the time-limit outcome. *)
Lemma outcome_at_limit (e : MazeGameEnv) :
  steps e >= max_steps e ->
  metadata (outcome e) <> goal_reached ->
  metadata (outcome e) <> fell_into_pit ->
  outcome e = mkResult (_get_obs e) 0.0 true true time_limit.
Proof.
  intros Hs Hg Hp.
  destruct (np.array_equal (current_pos e) (goal_pos e)) eqn:Eg.
  - apply array_equal_true in Eg. rewrite (outcome_goal e Eg) in Hg.
    simpl in Hg. congruence.
  - apply array_equal_false in Eg.
    destruct (np.array_equal (current_pos e) (pit_pos e)) eqn:Ep.
    + apply array_equal_true in Ep. rewrite (outcome_pit e Eg Ep) in Hp.
      simpl in Hp. congruence.
    + apply array_equal_false in Ep. apply (outcome_time_limit e Eg Ep Hs).
Qed.

(** A run from a reachable object never raises; it counts one step per
    action, and its [i]-th result is the outcome on an object that has
    taken [i + 1] steps more than the first. *)
Lemma run_reachable (maze0 : list (list string)) (actions : list Z) :
  forall e,
    reachable maze0 e ->
    exists e' rs,
      run e actions = Ok (e', rs) /\
      reachable maze0 e' /\
      steps e' = steps e + Z.of_nat (List.length actions) /\
      List.length rs = List.length actions /\
      forall i r,
        nth_error rs i = Some r ->
        exists ei,
          reachable maze0 ei /\ steps ei = steps e + Z.of_nat i + 1 /\
          r = outcome ei.
Proof.
  induction actions as [|a rest IH]; intros e R.
  - exists e, []. simpl. repeat split; [assumption|lia|].
    intros [|i] r H; discriminate.
  - destruct (step_reachable maze0 e a R)
      as (e1 & b & E & _ & _ & Hs & _).
    assert (R1 : reachable maze0 e1) by (eapply reach_step; eauto).
    destruct (IH e1 R1) as (e' & rs & Erun & R' & Hs' & Hl & Hnth).
    exists e', (outcome e1 :: rs). cbn [run]. rewrite E. cbn [bind fst snd].
    rewrite Erun. cbn [bind fst snd]. split; [reflexivity|].
    split; [assumption|]. split; [cbn [List.length]; lia|].
    split; [cbn [List.length]; lia|].
    intros [|i] r H.
    + injection H as <-. exists e1. repeat split; [assumption|lia].
    + destruct (Hnth i r H) as (ei & Ri & Hi & Hr).
      exists ei. repeat split; [assumption|lia|assumption].
Qed.

(** C2, with the case the priority order of [step] forces out: after a
    reset, a run of n steps returns and leaves the step count at n (each
    call adds exactly one, whether the move was applied or absorbed);
    and the 200th step, unless that very step ends on the goal or in the
    pit, returns reward 0.0, terminated, truncated, "Time limit
    reached", whatever the earlier steps returned. *)
Theorem step_count_and_time_limit
  (maze0 : list (list string)) (e : MazeGameEnv) (seed : option N)
  (actions : list Z) :
  reachable maze0 e ->
  (forall action, exists e1 r1,
      step e action = Ok (e1, r1) /\ steps e1 = steps e + 1) /\
  exists e' rs,
    run (fst (reset e seed)) actions = Ok (e', rs) /\
    steps e' = Z.of_nat (List.length actions) /\
    List.length rs = List.length actions /\
    forall r,
      nth_error rs 199 = Some r ->
      metadata r <> goal_reached ->
      metadata r <> fell_into_pit ->
      reward r = 0.0%Q /\ terminated r = true /\ truncated r = true /\
      metadata r = time_limit.
Proof.
  intros R. split.
  - intros action.
    destruct (step_reachable maze0 e action R) as (e1 & b & E & _ & _ & Hs & _).
    exists e1, (outcome e1). auto.
  - assert (R0 : reachable maze0 (fst (reset e seed))) by (apply reach_reset, R).
    destruct (run_reachable maze0 actions _ R0)
      as (e' & rs & Erun & _ & Hs & Hl & Hnth).
    exists e', rs. split; [exact Erun|].
    split; [rewrite Hs; destruct seed; simpl; lia|].
    split; [exact Hl|].
    intros r Hr Hg Hp.
    destruct (Hnth _ _ Hr) as (ei & Ri & Hi & ->).
    pose proof (wf_max ei (reachable_wf _ _ Ri)) as Hm.
    rewrite outcome_at_limit; [simpl; auto| |assumption|assumption].
    rewrite Hm, Hi. destruct seed; simpl; lia.
Qed.

(** ** Construction *)

Lemma argwhere_row_length (s : string) (r : Z) (row : list string) :
  forall c,
    List.length (np.argwhere_row s r c row) =
    List.length (List.filter (fun x => String.eqb x s) row).
Proof.
  induction row as [|x xs IH]; intros c; simpl; [reflexivity|].
  destruct (String.eqb x s); simpl; rewrite IH; reflexivity.
Qed.

(** [np.argwhere(a == s)] has one row per cell holding [s]. *)
Lemma argwhere_length (a : np.ndarray) (s : string) :
  List.length (np.argwhere a s) = count_cells a s.
Proof.
  unfold np.argwhere, count_cells. generalize 0.
  induction a as [|row rest IH]; intros r; simpl; [reflexivity|].
  rewrite List.filter_app, !List.length_app, argwhere_row_length, IH.
  reflexivity.
Qed.

Lemma item0_Raise (a : np.ndarray) (s : string) :
  (exists x, np.item0 (np.argwhere a s) = Raise x) <-> count_cells a s = 0%nat.
Proof.
  rewrite <- argwhere_length.
  destruct (np.argwhere a s) as [|p hits]; simpl; split.
  - reflexivity.
  - intros _. exists IndexError. reflexivity.
  - intros [x H]. discriminate.
  - discriminate.
Qed.

Lemma item0_cases (a : np.ndarray) (s : string) :
  (exists p, np.item0 (np.argwhere a s) = Ok p /\ count_cells a s <> 0%nat) \/
  (np.item0 (np.argwhere a s) = Raise IndexError /\ count_cells a s = 0%nat).
Proof.
  rewrite <- argwhere_length.
  destruct (np.argwhere a s) as [|p hits]; simpl.
  - right. auto.
  - left. exists p. auto.
Qed.

(** ** Observations *)

(** The bug is confined to the divisor 0.  On grids of 2 to 65 rows and
    2 to 65 columns every reachable observation lies in [0, 1] x [0, 1]
    (checked by evaluating the float32 division on each coordinate). *)
Lemma unit_upto_64 : unit_upto 64 = true.
Proof. vm_compute. reflexivity. Qed.

Lemma unit_component_small (p d : Z) :
  0 <= p <= d -> 1 <= d <= 64 -> unit_component p d = true.
Proof.
  intros Hp Hd. pose proof unit_upto_64 as H. unfold unit_upto in H.
  rewrite forallb_forall in H.
  specialize (H (Z.to_nat d)). rewrite in_seq in H.
  assert (Hd' : (1 <= Z.to_nat d < 1 + 64)%nat) by lia.
  specialize (H Hd'). rewrite forallb_forall in H.
  specialize (H (Z.to_nat p)). rewrite in_seq in H.
  assert (Hp' : (0 <= Z.to_nat p < 0 + S (Z.to_nat d))%nat) by lia.
  specialize (H Hp'). rewrite !Z2Nat.id in H by lia. exact H.
Qed.

Lemma small_grid_observation_in_unit
  (maze0 : list (list string)) (e : MazeGameEnv) :
  reachable maze0 e ->
  2 <= num_rows e <= 65 ->
  2 <= num_cols e <= 65 ->
  np.in_unit (fst (_get_obs e)) = true /\ np.in_unit (snd (_get_obs e)) = true.
Proof.
  intros R Hr Hc.
  destruct (valid_true e _ (wf_current e (reachable_wf _ _ R))) as [[Br Bc] _].
  split; apply unit_component_small; lia.
Qed.

(** ** Candidates *)

Lemma int64_small (z : Z) :
  - 2 ^ 63 <= z < 2 ^ 63 -> np.int64 z = z.
Proof.
  intros H. unfold np.int64. rewrite Z.mod_small; lia.
Qed.

(** On a reachable object whose grid fits int64 indices, nothing wraps:
    the candidate is the current position plus the action's delta. *)
Lemma new_pos_delta
  (maze0 : list (list string)) (e : MazeGameEnv) (action : Z) :
  reachable maze0 e ->
  num_rows e < 2 ^ 63 ->
  num_cols e < 2 ^ 63 ->
  new_pos e action =
    (fst (current_pos e) + fst (delta action),
     snd (current_pos e) + snd (delta action)).
Proof.
  intros R Hr Hc.
  destruct (valid_true e _ (wf_current e (reachable_wf _ _ R))) as [[Br Bc] _].
  unfold new_pos, delta. destruct (current_pos e) as [row col]. simpl in Br, Bc.
  destruct (action =? 0); [|destruct (action =? 1);
    [|destruct (action =? 2); [|destruct (action =? 3)]]];
    simpl; rewrite ?int64_small by lia; f_equal; lia.
Qed.

(** * Further properties *)

(** ** The positions read off the grid *)

Lemma argwhere_row_complete (s : string) (r : Z) (row : list string) :
  forall c j,
    nth_error row j = Some s ->
    In (r, c + Z.of_nat j) (np.argwhere_row s r c row).
Proof.
  induction row as [|x xs IH]; intros c j H; [destruct j; discriminate|].
  destruct j as [|j]; simpl in H.
  - injection H as ->. simpl. rewrite String.eqb_refl, Z.add_0_r. now left.
  - specialize (IH (c + 1) j H).
    replace (c + Z.of_nat (S j)) with (c + 1 + Z.of_nat j) by lia.
    simpl. destruct (String.eqb x s); [right|]; exact IH.
Qed.

Lemma argwhere_from_complete (s : string) (a : np.ndarray) :
  forall r i j row,
    nth_error a i = Some row ->
    nth_error row j = Some s ->
    In (r + Z.of_nat i, Z.of_nat j) (np.argwhere_from s r a).
Proof.
  induction a as [|row0 rest IH]; intros r i j row Hi Hj; [destruct i; discriminate|].
  simpl. apply in_or_app. destruct i as [|i]; simpl in Hi.
  - injection Hi as ->. left. rewrite Z.add_0_r.
    apply (argwhere_row_complete s r row 0 j Hj).
  - right. replace (r + Z.of_nat (S i)) with (r + 1 + Z.of_nat i) by lia.
    eapply IH; eauto.
Qed.

(** Every cell of a rectangular array that holds [s] is among the hits
    of [np.argwhere(a == s)]. *)
Lemma argwhere_complete (a : np.ndarray) (s : string) (row col : Z) :
  np.rectangular a = true ->
  0 <= row < fst (np.shape a) ->
  0 <= col < snd (np.shape a) ->
  np.getitem a row col = Ok s ->
  In (row, col) (np.argwhere a s).
Proof.
  intros Ha Hr Hc Hget.
  destruct (getitem_in_range a row col Ha Hr Hc) as (r & x & E1 & E2 & E3).
  assert (x = s) by congruence. subst x.
  pose proof (argwhere_from_complete s a 0 _ _ _ E1 E2) as H.
  rewrite !Z2Nat.id in H by lia. exact H.
Qed.

Lemma row_major_le_refl (p : pos) : row_major_le p p.
Proof. right. split; [reflexivity|lia]. Qed.

Lemma argwhere_row_head (s : string) (r : Z) (row : list string) :
  forall c p tl,
    np.argwhere_row s r c row = p :: tl ->
    Forall (row_major_le p) (p :: tl).
Proof.
  induction row as [|x xs IH]; intros c p tl H; simpl in H; [discriminate|].
  destruct (String.eqb x s); [|eapply IH; eauto].
  injection H as <- <-. constructor; [apply row_major_le_refl|].
  apply Forall_forall. intros q Hq.
  destruct (argwhere_row_In _ _ _ _ _ Hq) as (H1 & H2 & _).
  right. simpl. split; [congruence|lia].
Qed.

Lemma argwhere_from_head (s : string) (a : np.ndarray) :
  forall r p tl,
    np.argwhere_from s r a = p :: tl ->
    Forall (row_major_le p) (p :: tl).
Proof.
  induction a as [|row rest IH]; intros r p tl H; simpl in H; [discriminate|].
  destruct (np.argwhere_row s r 0 row) as [|p0 tl0] eqn:Erow.
  - simpl in H. eapply IH; eauto.
  - simpl in H. injection H as <- <-.
    pose proof (argwhere_row_head _ _ _ _ _ _ Erow) as Hrow.
    assert (Hp0 : fst p0 = r).
    { apply (argwhere_row_In s r row 0 p0). rewrite Erow. now left. }
    inversion Hrow as [|? ? Hpp Htl]; subst.
    constructor; [assumption|]. apply Forall_app. split; [assumption|].
    apply Forall_forall. intros q Hq.
    destruct (argwhere_from_In _ _ _ _ Hq) as (H1 & _).
    left. lia.
Qed.

(** [np.argwhere(a == s)[0]] is the least hit in row-major order. *)
Lemma item0_least (a : np.ndarray) (s : string) (p q : pos) :
  np.item0 (np.argwhere a s) = Ok p ->
  In q (np.argwhere a s) ->
  row_major_le p q.
Proof.
  unfold np.argwhere. intros Hp Hq.
  destruct (np.argwhere_from s 0 a) as [|p0 tl] eqn:E; [discriminate|].
  injection Hp as ->.
  pose proof (argwhere_from_head _ _ _ _ _ E) as H.
  rewrite Forall_forall in H. auto.
Qed.

(** A reachable object has the layout of the object [__init__] built. *)
Lemma reachable_from_init (maze0 : list (list string)) (e : MazeGameEnv) :
  reachable maze0 e ->
  exists e0, __init__ maze0 = Ok e0 /\ same_layout e0 e.
Proof.
  induction 1 as [e H|e seed _ IH|e action e' r _ IH H].
  - exists e. split; [assumption|apply same_layout_refl].
  - destruct IH as (e0 & H0 & L). exists e0. split; [assumption|].
    eapply same_layout_trans; [exact L|apply reset_layout].
  - destruct IH as (e0 & H0 & L). exists e0. split; [assumption|].
    eapply same_layout_trans; [exact L|eapply step_layout; eauto].
Qed.

(** The goal cell holds "G" and the pit cell "P": they are two cells. *)
Lemma goal_pit_distinct (maze0 : list (list string)) (e : MazeGameEnv) :
  reachable maze0 e -> goal_pos e <> pit_pos e.
Proof.
  intros R.
  destruct (reachable_from_init maze0 e R)
    as (e0 & H0 & (_ & _ & Lg & Lp & _)).
  destruct (init_Ok _ _ H0)
    as (start & goal & pit & _ & Ha & _ & Hg & Hp & _ & ->).
  simpl in Lg, Lp. rewrite Lg, Lp.
  destruct (argwhere_hit _ _ _ Ha (item0_In _ _ Hg)) as (_ & _ & Gcell).
  destruct (argwhere_hit _ _ _ Ha (item0_In _ _ Hp)) as (_ & _ & Pcell).
  intros E. rewrite E in Gcell. congruence.
Qed.

(** X1.  On every reachable object the start, goal and pit positions
    are cells of the grid holding "S", "G" and "P", so no two of them
    coincide. *)
Theorem marked_positions_distinct
  (maze0 : list (list string)) (e : MazeGameEnv) :
  reachable maze0 e ->
  (in_bounds e (start_pos e) /\
   np.getitem (maze e) (fst (start_pos e)) (snd (start_pos e)) = Ok "S"%string) /\
  (in_bounds e (goal_pos e) /\
   np.getitem (maze e) (fst (goal_pos e)) (snd (goal_pos e)) = Ok "G"%string) /\
  (in_bounds e (pit_pos e) /\
   np.getitem (maze e) (fst (pit_pos e)) (snd (pit_pos e)) = Ok "P"%string) /\
  start_pos e <> goal_pos e /\
  start_pos e <> pit_pos e /\
  goal_pos e <> pit_pos e.
Proof.
  intros R.
  destruct (reachable_from_init maze0 e R)
    as (e0 & H0 & (Lm & Ls & Lg & Lp & Lr & Lc & _)).
  destruct (init_Ok _ _ H0)
    as (start & goal & pit & _ & Ha & Hs & Hg & Hp & _ & ->).
  remember (np.cells maze0) as a eqn:Ea. clear Ea.
  simpl in Lm, Ls, Lg, Lp, Lr, Lc.
  unfold in_bounds. rewrite Lm, Ls, Lg, Lp, Lr, Lc.
  destruct (argwhere_hit _ _ _ Ha (item0_In _ _ Hs)) as (Sr & Sc & Scell).
  destruct (argwhere_hit _ _ _ Ha (item0_In _ _ Hg)) as (Gr & Gc & Gcell).
  destruct (argwhere_hit _ _ _ Ha (item0_In _ _ Hp)) as (Pr & Pc & Pcell).
  pose proof Sr as Sr'. pose proof Sc as Sc'. pose proof Gr as Gr'.
  pose proof Gc as Gc'. pose proof Pr as Pr'. pose proof Pc as Pc'.
  unfold np.shape in Sr', Sc', Gr', Gc', Pr', Pc'.
  cbn [fst snd] in Sr', Sc', Gr', Gc', Pr', Pc'.
  repeat split; try lia; try assumption; intros E; rewrite E in *; congruence.
Qed.

(** Reading the stored array is reading the grid and dropping the
    trailing NULs of the cell. *)
Lemma getitem_cells (m : list (list string)) (row col : Z) (s : string) :
  np.getitem m row col = Ok s ->
  np.getitem (np.cells m) row col = Ok (np.U s).
Proof.
  unfold np.getitem. rewrite cells_shape.
  destruct (np.index (fst (np.shape m)) row) as [i|x]; [|discriminate].
  destruct (np.index (snd (np.shape m)) col) as [j|x]; [|discriminate].
  cbn [bind]. unfold np.cells. rewrite nth_error_map.
  destruct (nth_error m i) as [r|]; [|discriminate]. cbn [option_map].
  rewrite nth_error_map.
  destruct (nth_error r j) as [x|]; [|discriminate]. cbn [option_map].
  intros H. injection H as ->. reflexivity.
Qed.

(** The object [__init__] returns has, for each kind, the first cell of
    that kind in row-major order. *)
Lemma init_takes_first (maze0 : list (list string)) (e : MazeGameEnv) :
  __init__ maze0 = Ok e ->
  maze e = np.cells maze0 /\
  (np.getitem (maze e) (fst (start_pos e)) (snd (start_pos e)) = Ok "S"%string /\
   forall row col,
     in_bounds e (row, col) ->
     np.getitem (maze e) row col = Ok "S"%string ->
     row_major_le (start_pos e) (row, col)) /\
  (np.getitem (maze e) (fst (goal_pos e)) (snd (goal_pos e)) = Ok "G"%string /\
   forall row col,
     in_bounds e (row, col) ->
     np.getitem (maze e) row col = Ok "G"%string ->
     row_major_le (goal_pos e) (row, col)) /\
  (np.getitem (maze e) (fst (pit_pos e)) (snd (pit_pos e)) = Ok "P"%string /\
   forall row col,
     in_bounds e (row, col) ->
     np.getitem (maze e) row col = Ok "P"%string ->
     row_major_le (pit_pos e) (row, col)).
Proof.
  intros H0.
  destruct (init_Ok _ _ H0)
    as (start & goal & pit & _ & Ha & Hs & Hg & Hp & _ & ->).
  remember (np.cells maze0) as a eqn:Ea.
  unfold in_bounds. cbn [maze start_pos goal_pos pit_pos num_rows num_cols fst snd].
  split; [reflexivity|].
  split; [|split]; (split;
    [eapply argwhere_hit; [exact Ha|apply item0_In; eassumption]
    |intros row col [Hr Hc] Hcell; cbn [fst snd] in Hr, Hc]).
  - apply (item0_least a "S" _ _ Hs), argwhere_complete; assumption.
  - apply (item0_least a "G" _ _ Hg), argwhere_complete; assumption.
  - apply (item0_least a "P" _ _ Hp), argwhere_complete; assumption.
Qed.

(** Trailing NULs are dropped, one or many. *)
Lemma U_drops_trailing_nul (s : string) :
  np.U (s ++ String Ascii.zero EmptyString) = np.U s.
Proof.
  induction s as [|c s IH]; [reflexivity|].
  cbn [append np.U]. rewrite IH. reflexivity.
Qed.

Lemma U_idempotent (s : string) : np.U (np.U s) = np.U s.
Proof.
  induction s as [|c s IH]; [reflexivity|].
  cbn [np.U]. destruct (np.U s) as [|c' s'] eqn:E.
  - destruct (Ascii.eqb c Ascii.zero) eqn:Ec; [reflexivity|].
    cbn [np.U]. rewrite Ec. reflexivity.
  - cbn [np.U] in IH |- *. rewrite IH. reflexivity.
Qed.

(** A rectangular grid with at least one cell of each kind is built
    whenever its window opens, however many cells of a kind it has. *)
Lemma construction_succeeds (maze0 : list (list string)) :
  np.rectangular maze0 = true ->
  count_cells (np.cells maze0) "S" <> 0%nat ->
  count_cells (np.cells maze0) "G" <> 0%nat ->
  count_cells (np.cells maze0) "P" <> 0%nat ->
  set_mode (snd (np.shape maze0) * cell_size)
           (fst (np.shape maze0) * cell_size) = true ->
  exists e, __init__ maze0 = Ok e.
Proof.
  intros Hrect Hs Hg Hp Hw. unfold __init__, np.array. rewrite Hrect.
  cbn [bind].
  destruct (item0_cases (np.cells maze0) "S") as [(s & -> & _)|[_ H]];
    [|contradiction]. cbn [bind].
  destruct (item0_cases (np.cells maze0) "G") as [(g & -> & _)|[_ H]];
    [|contradiction]. cbn [bind].
  destruct (item0_cases (np.cells maze0) "P") as [(p & -> & _)|[_ H]];
    [|contradiction]. cbn [bind num_rows num_cols].
  rewrite cells_shape, Hw. eauto.
Qed.


(** X2.  When the grid has several cells of one kind, [__init__] takes
    the first in row-major order: every cell holding "S" comes at or
    after [start_pos], and likewise for "G" and [goal_pos], "P" and
    [pit_pos]; so it is for the cells of the grid as given and for the
    cells of the array as stored. *)
Theorem first_marked_cell_is_taken
  (maze0 : list (list string)) (e : MazeGameEnv) (row col : Z) :
  __init__ maze0 = Ok e ->
  in_bounds e (row, col) ->
  (np.getitem maze0 row col = Ok "S"%string -> row_major_le (start_pos e) (row, col)) /\
  (np.getitem maze0 row col = Ok "G"%string -> row_major_le (goal_pos e) (row, col)) /\
  (np.getitem maze0 row col = Ok "P"%string -> row_major_le (pit_pos e) (row, col)) /\
  (np.getitem (maze e) row col = Ok "S"%string -> row_major_le (start_pos e) (row, col)) /\
  (np.getitem (maze e) row col = Ok "G"%string -> row_major_le (goal_pos e) (row, col)) /\
  (np.getitem (maze e) row col = Ok "P"%string -> row_major_le (pit_pos e) (row, col)).
Proof.
  intros H0 B.
  destruct (init_takes_first maze0 e H0) as (Em & [_ Hs] & [_ Hg] & [_ Hp]).
  repeat split; intros Hcell;
    try (apply getitem_cells in Hcell; rewrite <- Em in Hcell; cbn [np.U] in Hcell);
    auto.
Qed.

(** ** Moves *)

(** X3.  On a reachable object [_is_valid_position] raises for no
    position, inside or outside the grid, and it accepts exactly the
    positions inside the grid whose cell is not "#". *)
Theorem valid_position_iff
  (maze0 : list (list string)) (e : MazeGameEnv) (p : pos) :
  reachable maze0 e ->
  exists b,
    _is_valid_position e p = Ok b /\
    (b = true <-> in_bounds e p /\ off_obstacle e p) /\
    (b = false <-> out_of_bounds e p \/ on_obstacle e p).
Proof.
  intros R. destruct (valid_total e p (reachable_wf _ _ R)) as [b Hb].
  exists b. split; [exact Hb|].
  assert (Htrue : in_bounds e p /\ off_obstacle e p -> b = true).
  { intros [Hin (cell & Hc & Hne)]. destruct p as [row col].
    unfold _is_valid_position in Hb.
    rewrite (proj2 (bounds_test_false e row col) Hin) in Hb.
    simpl in Hc. rewrite Hc in Hb. simpl in Hb.
    destruct (String.eqb_spec cell "#"); congruence. }
  assert (Hfalse : out_of_bounds e p \/ on_obstacle e p -> b = false).
  { intros [H|H];
      [rewrite (valid_out_of_bounds _ _ H) in Hb
      |rewrite (valid_on_obstacle _ _ H) in Hb]; congruence. }
  split; split; try assumption.
  - intros ->. apply valid_true, Hb.
  - intros ->. destruct p as [row col]. unfold _is_valid_position in Hb.
    destruct (_ || _) eqn:Eb.
    + left. apply bounds_test_true, Eb.
    + right. apply bounds_test_false in Eb. split; [assumption|].
      apply bind_Ok in Hb. destruct Hb as (cell & Hc & Hb). simpl.
      destruct (String.eqb_spec cell "#"); [congruence|discriminate].
Qed.

(** X4.  A candidate inside the grid on a cell that is not "#" is
    taken: after the step the current position is the candidate, and
    the step is counted. *)
Theorem free_move_applied
  (maze0 : list (list string)) (e : MazeGameEnv) (action : Z) :
  reachable maze0 e ->
  in_bounds e (new_pos e action) ->
  off_obstacle e (new_pos e action) ->
  exists e' r,
    step e action = Ok (e', r) /\
    current_pos e' = new_pos e action /\
    steps e' = steps e + 1.
Proof.
  intros R Hin Hoff.
  destruct (step_reachable maze0 e action R)
    as (e' & b & E & Hb & Hcur & Hs & _).
  exists e', (outcome e'). split; [exact E|]. split; [|exact Hs].
  destruct b; [exact Hcur|].
  destruct (new_pos e action) as [row col] eqn:En.
  destruct Hoff as (cell & Hc & Hne).
  unfold _is_valid_position in Hb.
  rewrite (proj2 (bounds_test_false e row col) Hin) in Hb.
  simpl in Hc. rewrite Hc in Hb. simpl in Hb.
  destruct (String.eqb_spec cell "#"); congruence.
Qed.

(** X5.  A step moves the agent by at most one cell, along one axis,
    on any grid whose dimensions fit an int64. *)
Theorem step_moves_one_cell_at_most
  (maze0 : list (list string)) (e e' : MazeGameEnv) (action : Z)
  (r : step_result) :
  reachable maze0 e ->
  num_rows e < 2 ^ 63 ->
  num_cols e < 2 ^ 63 ->
  step e action = Ok (e', r) ->
  Z.abs (fst (current_pos e') - fst (current_pos e)) +
  Z.abs (snd (current_pos e') - snd (current_pos e)) <= 1.
Proof.
  intros R Hr Hc H.
  destruct (step_reachable maze0 e action R)
    as (e1 & b & E & _ & Hcur & _).
  rewrite E in H. injection H as <- _. rewrite Hcur.
  destruct b; [|lia].
  rewrite (new_pos_delta maze0 e action R Hr Hc). unfold delta.
  destruct (action =? 0); [|destruct (action =? 1);
    [|destruct (action =? 2); [|destruct (action =? 3)]]]; simpl; lia.
Qed.

(** X6.  An accepted move can be taken back: after a step whose
    candidate was accepted, the opposite action is accepted too and
    puts the agent where it was. *)
Theorem accepted_move_reversible
  (maze0 : list (list string)) (e e1 : MazeGameEnv) (action : Z)
  (r1 : step_result) :
  reachable maze0 e ->
  num_rows e < 2 ^ 63 ->
  num_cols e < 2 ^ 63 ->
  _is_valid_position e (new_pos e action) = Ok true ->
  step e action = Ok (e1, r1) ->
  exists e2 r2,
    step e1 (opposite action) = Ok (e2, r2) /\
    current_pos e2 = current_pos e /\
    steps e2 = steps e + 2.
Proof.
  intros R Hr Hc Hv H.
  destruct (step_reachable maze0 e action R)
    as (e1' & b & E & Hb & Hcur & Hs & _ & _ & L).
  rewrite E in H. injection H as -> _.
  assert (b = true) by congruence. subst b.
  assert (R1 : reachable maze0 e1) by (eapply reach_step; eauto).
  destruct L as (Lm & _ & _ & _ & Lr & Lc & _).
  assert (Hback : new_pos e1 (opposite action) = current_pos e).
  { rewrite (new_pos_delta maze0 e1 _ R1) by lia.
    rewrite Hcur, (new_pos_delta maze0 e action R Hr Hc).
    unfold opposite, delta. destruct (current_pos e) as [row col].
    destruct (Z.eqb_spec action 0) as [->|]; [simpl; f_equal; lia|].
    destruct (Z.eqb_spec action 1) as [->|]; [simpl; f_equal; lia|].
    destruct (Z.eqb_spec action 2) as [->|]; [simpl; f_equal; lia|].
    destruct (Z.eqb_spec action 3) as [->|]; [simpl; f_equal; lia|].
    destruct (Z.eqb_spec action 0); [lia|].
    destruct (Z.eqb_spec action 1); [lia|].
    destruct (Z.eqb_spec action 2); [lia|].
    destruct (Z.eqb_spec action 3); [lia|].
    simpl. f_equal; lia. }
  destruct (step_reachable maze0 e1 (opposite action) R1)
    as (e2 & b2 & E2 & Hb2 & Hcur2 & Hs2 & _).
  exists e2, (outcome e2). split; [exact E2|]. split; [|lia].
  rewrite Hcur2, Hback. destruct b2; [reflexivity|].
  rewrite Hback, (valid_layout e e1 _ Lm Lr Lc) in Hb2.
  rewrite (wf_current e (reachable_wf _ _ R)) in Hb2. discriminate.
Qed.

(** ** Episodes *)

(** X7.  No episode outlasts the step ceiling: in a run of steps after
    a reset, every result from the 200th on has terminated = true. *)
Theorem episode_ends_by_step_200
  (maze0 : list (list string)) (e e' : MazeGameEnv) (seed : option N)
  (actions : list Z) (rs : list step_result) (i : nat) (r : step_result) :
  reachable maze0 e ->
  run (fst (reset e seed)) actions = Ok (e', rs) ->
  nth_error rs i = Some r ->
  (199 <= i)%nat ->
  terminated r = true.
Proof.
  intros R Hrun Hnth Hi.
  assert (R0 : reachable maze0 (fst (reset e seed))) by (apply reach_reset, R).
  destruct (run_reachable maze0 actions _ R0)
    as (e1 & rs1 & Erun & _ & _ & _ & Hall).
  rewrite Erun in Hrun. injection Hrun as -> ->.
  destruct (Hall _ _ Hnth) as (ei & Ri & Hsi & ->).
  pose proof (wf_max ei (reachable_wf _ _ Ri)) as Hm.
  assert (Hs0 : steps (fst (reset e seed)) = 0) by (destruct seed; reflexivity).
  unfold outcome.
  destruct (np.array_equal _ (goal_pos ei)); [reflexivity|].
  destruct (np.array_equal _ (pit_pos ei)); [reflexivity|].
  replace (steps ei >=? max_steps ei) with true; [reflexivity|].
  symmetry. rewrite Z.geb_leb. apply Z.leb_le. lia.
Qed.

(** X8.  What a result says about the object [step] leaves.  Truncated
    never comes without terminated: it comes with reward 0.0, at 200
    steps or more, off the goal and off the pit.  A result that is not
    terminated comes with reward -0.01, below 200 steps, off the goal
    and off the pit. *)
Theorem result_flags_consistent
  (maze0 : list (list string)) (e e' : MazeGameEnv) (action : Z)
  (r : step_result) :
  reachable maze0 e ->
  step e action = Ok (e', r) ->
  (truncated r = true ->
     terminated r = true /\ reward r = 0.0%Q /\ steps e' >= 200 /\
     current_pos e' <> goal_pos e' /\ current_pos e' <> pit_pos e') /\
  (terminated r = false ->
     truncated r = false /\ reward r = (-0.01)%Q /\ steps e' < 200 /\
     current_pos e' <> goal_pos e' /\ current_pos e' <> pit_pos e').
Proof.
  intros R H.
  destruct (step_reachable maze0 e action R)
    as (e1 & b & E & _ & _ & _ & Hm & _).
  rewrite E in H. injection H as <- <-.
  unfold outcome.
  destruct (np.array_equal _ (goal_pos e1)) eqn:Eg;
    [split; simpl; discriminate|].
  destruct (np.array_equal _ (pit_pos e1)) eqn:Ep;
    [split; simpl; discriminate|].
  apply array_equal_false in Eg, Ep.
  destruct (steps e1 >=? max_steps e1) eqn:Es; simpl.
  - split; [|discriminate]. intros _.
    rewrite Z.geb_leb in Es. apply Z.leb_le in Es. repeat split; auto. lia.
  - split; [discriminate|]. intros _.
    rewrite Z.geb_leb in Es. apply Z.leb_gt in Es. repeat split; auto. lia.
Qed.

(** X9.  [step] has no guard against a finished episode.  On an object
    standing on the goal, an action that moves nothing (its candidate
    is refused, or it is none of the four) returns "Goal reached!" with
    reward 1.0 once more, whatever the step count; standing on the pit
    it returns "Fell into death pit!" with -1.0 once more. *)
Theorem terminal_outcome_repeats
  (maze0 : list (list string)) (e : MazeGameEnv) (action : Z) :
  reachable maze0 e ->
  _is_valid_position e (new_pos e action) = Ok false \/ ~ (0 <= action <= 3) ->
  exists e' r,
    step e action = Ok (e', r) /\
    steps e' = steps e + 1 /\
    (current_pos e = goal_pos e ->
       reward r = 1.0%Q /\ terminated r = true /\ truncated r = false /\
       metadata r = goal_reached) /\
    (current_pos e = pit_pos e ->
       reward r = (-1.0)%Q /\ terminated r = true /\ truncated r = false /\
       metadata r = fell_into_pit).
Proof.
  intros R Hstay.
  destruct (step_reachable maze0 e action R)
    as (e' & b & E & Hb & Hcur & Hs & _ & _ & L).
  assert (Hsame : current_pos e' = current_pos e).
  { destruct Hstay as [Hv|Ha].
    - rewrite Hv in Hb. injection Hb as <-. exact Hcur.
    - rewrite Hcur. destruct b; [|reflexivity].
      unfold new_pos. destruct (current_pos e) as [row col].
      destruct (Z.eqb_spec action 0); [lia|].
      destruct (Z.eqb_spec action 1); [lia|].
      destruct (Z.eqb_spec action 2); [lia|].
      destruct (Z.eqb_spec action 3); [lia|reflexivity]. }
  destruct L as (_ & _ & Lg & Lp & _).
  pose proof (goal_pit_distinct maze0 e R) as Hgp.
  exists e', (outcome e'). split; [exact E|]. split; [exact Hs|]. split.
  - intros Hg. rewrite outcome_goal by congruence. simpl. auto.
  - intros Hp. rewrite outcome_pit by congruence. simpl. auto.
Qed.

Lemma run_Ok_reachable
  (maze0 : list (list string)) (e e' : MazeGameEnv) (actions : list Z)
  (rs : list step_result) :
  reachable maze0 e -> run e actions = Ok (e', rs) -> reachable maze0 e'.
Proof.
  intros R H.
  destruct (run_reachable maze0 actions e R) as (e1 & rs1 & E & R1 & _).
  rewrite E in H. injection H as <- _. exact R1.
Qed.

(** ** Observations, again *)

Lemma outcome_obs (e : MazeGameEnv) : obs (outcome e) = _get_obs e.
Proof.
  unfold outcome.
  destruct (np.array_equal _ (goal_pos e)); [reflexivity|].
  destruct (np.array_equal _ (pit_pos e)); [reflexivity|].
  destruct (steps e >=? max_steps e); reflexivity.
Qed.

Lemma single_row_obs (maze0 : list (list string)) (e : MazeGameEnv) :
  reachable maze0 e -> num_rows e = 1 -> fst (_get_obs e) = S754_nan.
Proof.
  intros R H1.
  destruct (valid_true e _ (wf_current e (reachable_wf _ _ R))) as [[Br _] _].
  unfold _get_obs. cbn [fst].
  replace (fst (current_pos e)) with 0 by lia. rewrite H1. reflexivity.
Qed.

Lemma single_col_obs (maze0 : list (list string)) (e : MazeGameEnv) :
  reachable maze0 e -> num_cols e = 1 -> snd (_get_obs e) = S754_nan.
Proof.
  intros R H1.
  destruct (valid_true e _ (wf_current e (reachable_wf _ _ R))) as [[_ Bc] _].
  unfold _get_obs. cbn [snd].
  replace (snd (current_pos e)) with 0 by lia. rewrite H1. reflexivity.
Qed.

(** X10.  On every grid with a single row, the row component of every
    observation, from [reset] and from [step] alike, is NaN, which is
    outside [0, 1]; on every grid with a single column so is the column
    component. *)
Theorem single_line_grid_gives_nan
  (maze0 : list (list string)) (e : MazeGameEnv) :
  reachable maze0 e ->
  (num_rows e = 1 ->
     (forall seed, fst (fst (snd (reset e seed))) = S754_nan) /\
     (forall action, exists e' r,
         step e action = Ok (e', r) /\ fst (obs r) = S754_nan /\
         np.in_unit (fst (obs r)) = false)) /\
  (num_cols e = 1 ->
     (forall seed, snd (fst (snd (reset e seed))) = S754_nan) /\
     (forall action, exists e' r,
         step e action = Ok (e', r) /\ snd (obs r) = S754_nan /\
         np.in_unit (snd (obs r)) = false)).
Proof.
  intros R. split; intros H1; split.
  - intros seed.
    pose proof (reach_reset maze0 e seed R) as R0.
    apply (single_row_obs maze0 _ R0). destruct seed; exact H1.
  - intros action.
    destruct (step_reachable maze0 e action R)
      as (e' & b & E & _ & _ & _ & _ & _ & L).
    assert (R1 : reachable maze0 e') by (eapply reach_step; eauto).
    destruct L as (_ & _ & _ & _ & Lr & _).
    exists e', (outcome e'). split; [exact E|].
    rewrite outcome_obs, (single_row_obs maze0 e' R1) by congruence.
    split; reflexivity.
  - intros seed.
    pose proof (reach_reset maze0 e seed R) as R0.
    apply (single_col_obs maze0 _ R0). destruct seed; exact H1.
  - intros action.
    destruct (step_reachable maze0 e action R)
      as (e' & b & E & _ & _ & _ & _ & _ & L).
    assert (R1 : reachable maze0 e') by (eapply reach_step; eauto).
    destruct L as (_ & _ & _ & _ & _ & Lc & _).
    exists e', (outcome e'). split; [exact E|].
    rewrite outcome_obs, (single_col_obs maze0 e' R1) by congruence.
    split; reflexivity.
Qed.

(** ** Reproducible episodes *)

Lemma step_ignores_generator (e : MazeGameEnv) (g : option N) (action : Z) :
  step (set_np_random e g) action =
  match step e action with
  | Ok (e', r) => Ok (set_np_random e' g, r)
  | Raise x => Raise x
  end.
Proof.
  unfold step.
  replace (new_pos (set_np_random e g) action) with (new_pos e action)
    by reflexivity.
  rewrite (valid_layout e (set_np_random e g) _ eq_refl eq_refl eq_refl).
  destruct (_is_valid_position e (new_pos e action)) as [[|]|x]; reflexivity.
Qed.

Lemma run_ignores_generator (g : option N) (actions : list Z) :
  forall e,
    run (set_np_random e g) actions =
    match run e actions with
    | Ok (e', rs) => Ok (set_np_random e' g, rs)
    | Raise x => Raise x
    end.
Proof.
  induction actions as [|a rest IH]; intros e; [reflexivity|].
  cbn [run]. rewrite step_ignores_generator.
  destruct (step e a) as [[e1 r1]|x]; [|reflexivity].
  cbn [bind fst snd]. rewrite IH.
  destruct (run e1 rest) as [[e2 rs]|x]; reflexivity.
Qed.

(** [reset] puts a reachable object back in the state [__init__] left,
    the generator apart. *)
Lemma reset_is_fresh
  (maze0 : list (list string)) (e0 e : MazeGameEnv) (seed : option N) :
  __init__ maze0 = Ok e0 ->
  reachable maze0 e ->
  fst (reset e seed) = set_np_random e0 (np_random (fst (reset e seed))).
Proof.
  intros H0 R.
  destruct (reachable_layout _ _ _ H0 R) as (Lm & Ls & Lg & Lp & Lr & Lc & Lx).
  destruct (init_Ok _ _ H0)
    as (start & goal & pit & _ & _ & _ & _ & _ & _ & ->).
  remember (np.cells maze0) as a eqn:Ea. clear Ea H0.
  destruct e; simpl in *; subst. destruct seed; reflexivity.
Qed.

(** X11.  Episodes are reproducible: after a reset, the results of a
    run of steps depend on the grid and the actions alone.  Whatever
    two histories led to two objects on the same grid and whatever
    seeds the resets got, the same actions return the same list of
    results and leave the same position and step count. *)
Theorem episode_depends_on_actions_only
  (maze0 : list (list string)) (e1 e2 : MazeGameEnv) (seed1 seed2 : option N)
  (actions : list Z) :
  reachable maze0 e1 ->
  reachable maze0 e2 ->
  exists a b rs,
    run (fst (reset e1 seed1)) actions = Ok (a, rs) /\
    run (fst (reset e2 seed2)) actions = Ok (b, rs) /\
    current_pos a = current_pos b /\
    steps a = steps b.
Proof.
  intros R1 R2.
  destruct (reachable_from_init maze0 e1 R1) as (e0 & H0 & _).
  rewrite (reset_is_fresh maze0 e0 e1 seed1 H0 R1).
  rewrite (reset_is_fresh maze0 e0 e2 seed2 H0 R2).
  rewrite !run_ignores_generator.
  destruct (run_reachable maze0 actions e0 (reach_init _ _ H0))
    as (x & rs & E & _).
  rewrite E. eexists; eexists; exists rs. repeat split.
Qed.

(** ** Rendering *)

Lemma range_In (n z : Z) : In z (range n) <-> 0 <= z < n.
Proof.
  unfold range. rewrite in_map_iff. split.
  - intros (k & <- & Hk). apply in_seq in Hk. lia.
  - intros H. exists (Z.to_nat z). split; [lia|]. apply in_seq. lia.
Qed.

Lemma range_NoDup (n : Z) : NoDup (range n).
Proof.
  unfold range. generalize (seq_NoDup (Z.to_nat n) 0).
  generalize (seq 0 (Z.to_nat n)). intros l H.
  induction H as [|k l Hk Hl IH]; simpl; constructor; [|exact IH].
  rewrite in_map_iff. intros (k' & E & Hin).
  apply Nat2Z.inj in E. subst k'. contradiction.
Qed.

Lemma flat_map_nil {A B : Type} (g : A -> list B) (l : list A) :
  (forall x, In x l -> g x = []) -> flat_map g l = [].
Proof.
  induction l as [|a l IH]; intros H; [reflexivity|].
  simpl. rewrite (H a) by now left. apply IH. intros x Hx. apply H. now right.
Qed.

(** Over a list without repetition, a function that is empty off [x]
    contributes once. *)
Lemma flat_map_single {A B : Type} (g : A -> list B) (l : list A) (x : A) :
  NoDup l -> In x l -> (forall y, y <> x -> g y = []) ->
  flat_map g l = g x.
Proof.
  intros Hnd Hin Hg. induction Hnd as [|a l Ha Hnd IH]; [contradiction|].
  simpl. destruct Hin as [->|Hin].
  - rewrite flat_map_nil, app_nil_r; [reflexivity|].
    intros y Hy. apply Hg. intros ->. contradiction.
  - rewrite (Hg a), (IH Hin); [reflexivity|]. intros ->. contradiction.
Qed.

Lemma filter_flat_map {A B : Type} (f : B -> bool) (g : A -> list B) (l : list A) :
  filter f (flat_map g l) = flat_map (fun x => filter f (g x)) l.
Proof.
  induction l as [|a l IH]; [reflexivity|].
  simpl. rewrite filter_app, IH. reflexivity.
Qed.

Lemma first_failure_None (load : string -> load_outcome) (imgs : list image) :
  (forall i, load (image_path i) = Loaded) -> first_failure load imgs = None.
Proof.
  intros H. induction imgs as [|i rest IH]; [reflexivity|].
  simpl. rewrite H. exact IH.
Qed.

(** The first load that does not return a surface is the one that ends
    the try block. *)
Lemma first_failure_at
  (load : string -> load_outcome) (before after : list image) (i : image) :
  (forall j, In j before -> load (image_path j) = Loaded) ->
  load (image_path i) <> Loaded ->
  first_failure load (before ++ i :: after) = Some (i, load (image_path i)).
Proof.
  intros Hb Hi. induction before as [|j rest IH]; simpl.
  - destruct (load (image_path i)); [congruence|reflexivity|reflexivity].
  - rewrite (Hb j) by now left. apply IH. intros k Hk. apply Hb. now right.
Qed.

Lemma render_cell_wf (e : MazeGameEnv) (row col : Z) :
  wf e -> in_bounds e (row, col) ->
  np.getitem (maze e) row col = Ok (cell_at e row col) /\
  render_cell e row col = Ok (cell_draws e row col (cell_at e row col)).
Proof.
  intros W [Hr Hc]. simpl in Hr, Hc.
  rewrite (wf_rows e W) in Hr. rewrite (wf_cols e W) in Hc.
  destruct (getitem_in_range _ _ _ (wf_array e W) Hr Hc) as (r & x & _ & _ & E).
  unfold render_cell, cell_at. rewrite E. split; reflexivity.
Qed.

Lemma render_cols_wf (e : MazeGameEnv) (row : Z) (cols : list Z) :
  wf e -> 0 <= row < num_rows e ->
  (forall c, In c cols -> 0 <= c < num_cols e) ->
  render_cols e row cols =
    Ok (flat_map (fun c => cell_draws e row c (cell_at e row c)) cols).
Proof.
  intros W Hr. induction cols as [|c rest IH]; intros Hc; [reflexivity|].
  cbn [render_cols flat_map].
  assert (B : in_bounds e (row, c)) by (split; [exact Hr|apply Hc; now left]).
  destruct (render_cell_wf e row c W B) as [_ ->].
  cbn [bind]. rewrite IH; [reflexivity|]. intros c' H. apply Hc. now right.
Qed.

(** On a well-formed object the two loops raise nothing and draw, row
    by row and column by column, what each cell calls for. *)
Lemma render_rows_wf (e : MazeGameEnv) (rows : list Z) :
  wf e ->
  (forall r, In r rows -> 0 <= r < num_rows e) ->
  render_rows e rows =
    Ok (flat_map
          (fun r => flat_map (fun c => cell_draws e r c (cell_at e r c))
                             (range (num_cols e)))
          rows).
Proof.
  intros W. induction rows as [|r rest IH]; intros Hr; [reflexivity|].
  cbn [render_rows flat_map].
  rewrite render_cols_wf; [|assumption|apply Hr; now left|intros c; apply range_In].
  cbn [bind]. rewrite IH; [reflexivity|]. intros r' H. apply Hr. now right.
Qed.

Lemma tile_image_not_agent (cell : string) : tile_image cell <> Some agent_img.
Proof.
  unfold tile_image.
  destruct (String.eqb cell "#"); [discriminate|].
  destruct (String.eqb cell "S"); [discriminate|].
  destruct (String.eqb cell "G"); [discriminate|].
  destruct (String.eqb cell "P"); discriminate.
Qed.

Lemma cell_draws_agent (e : MazeGameEnv) (row col : Z) (cell : string) :
  filter is_agent_blit (cell_draws e row col cell) =
  if np.array_equal (current_pos e) (row, col)
  then [Blit agent_img (col * cell_size) (row * cell_size)]
  else [].
Proof.
  unfold cell_draws. rewrite filter_app.
  pose proof (tile_image_not_agent cell) as Hn.
  destruct (tile_image cell) as [[| | | |]|]; try congruence;
    destruct (np.array_equal (current_pos e) (row, col)); reflexivity.
Qed.

Lemma cell_draws_In (e : MazeGameEnv) (row col : Z) (cell : string)
  (i : image) (x y : Z) :
  In (Blit i x y) (cell_draws e row col cell) <->
  x = col * cell_size /\ y = row * cell_size /\
  (tile_image cell = Some i \/ (i = agent_img /\ current_pos e = (row, col))).
Proof.
  unfold cell_draws. rewrite in_app_iff.
  destruct (np.array_equal (current_pos e) (row, col)) eqn:Ea.
  - apply array_equal_true in Ea.
    destruct (tile_image cell) as [img|]; simpl; split.
    + intros [[H|[]]|[H|[]]]; injection H as <- <- <-; auto.
    + intros (-> & -> & [H|[-> _]]); [injection H as ->|]; auto.
    + intros [[]|[H|[]]]; injection H as <- <- <-; auto.
    + intros (-> & -> & [H|[-> _]]); [discriminate|]; auto.
  - apply array_equal_false in Ea.
    destruct (tile_image cell) as [img|]; simpl; split.
    + intros [[H|[]]|[]]; injection H as <- <- <-; auto.
    + intros (-> & -> & [H|[_ H]]); [injection H as ->|contradiction]; auto.
    + intros [[]|[]].
    + intros (_ & _ & [H|[_ H]]); [discriminate|contradiction].
Qed.

Lemma cell_draws_blits (e : MazeGameEnv) (row col : Z) (cell : string) (d : draw) :
  In d (cell_draws e row col cell) -> exists i x y, d = Blit i x y.
Proof.
  unfold cell_draws. rewrite in_app_iff.
  destruct (tile_image cell); destruct (np.array_equal _ _); simpl;
    intros [[H|[]]|[H|[]]] || intros [[H|[]]|[]] || intros [[]|[H|[]]]
    || intros [[]|[]]; subst; eauto.
Qed.

(** When every sprite loads and the display surface is alive, [render]
    on a reachable object returns: it fills the screen, runs the two
    loops and updates the display. *)
Lemma render_reachable
  (maze0 : list (list string)) (e : MazeGameEnv)
  (load : string -> load_outcome) (screen : list draw) :
  reachable maze0 e ->
  (forall i, load (image_path i) = Loaded) ->
  render load true e screen =
    Ok (screen ++
        Fill 255 255 255 ::
        flat_map
          (fun r => flat_map (fun c => cell_draws e r c (cell_at e r c))
                             (range (num_cols e)))
          (range (num_rows e)) ++ [Update],
        None).
Proof.
  intros R Hfiles. unfold render.
  rewrite (first_failure_None load load_order Hfiles).
  rewrite (render_rows_wf e _ (reachable_wf _ _ R)); [reflexivity|].
  intros r. apply range_In.
Qed.

(** X12.  When every sprite loads and the display surface is alive,
    [render] on a reachable object raises nothing and draws the agent
    exactly once, at the pixel (col * 125, row * 125) of the current
    position, between the fill and the display update. *)
Theorem render_draws_agent_once
  (maze0 : list (list string)) (e : MazeGameEnv)
  (load : string -> load_outcome) (screen : list draw) :
  reachable maze0 e ->
  (forall i, load (image_path i) = Loaded) ->
  exists ds,
    render load true e screen =
      Ok (screen ++ Fill 255 255 255 :: ds ++ [Update], None) /\
    filter is_agent_blit ds =
      [Blit agent_img (snd (current_pos e) * 125) (fst (current_pos e) * 125)].
Proof.
  intros R Hfiles. eexists. split; [apply (render_reachable maze0); assumption|].
  destruct (valid_true e _ (wf_current e (reachable_wf _ _ R))) as [[Br Bc] _].
  rewrite filter_flat_map.
  rewrite (flat_map_single _ _ (fst (current_pos e)) (range_NoDup _));
    [|apply range_In; exact Br|].
  - rewrite filter_flat_map.
    rewrite (flat_map_single _ _ (snd (current_pos e)) (range_NoDup _));
      [|apply range_In; exact Bc|].
    + rewrite cell_draws_agent.
      rewrite (proj2 (array_equal_true _ _)); [reflexivity|].
      destruct (current_pos e); reflexivity.
    + intros c Hc. rewrite cell_draws_agent.
      rewrite (proj2 (array_equal_false _ _)); [reflexivity|].
      intros E. rewrite E in Hc. simpl in Hc. congruence.
  - intros r Hr. rewrite filter_flat_map. apply flat_map_nil.
    intros c _. rewrite cell_draws_agent.
    rewrite (proj2 (array_equal_false _ _)); [reflexivity|].
    intros E. rewrite E in Hr. simpl in Hr. congruence.
Qed.

(** X13.  When every sprite loads and the display surface is alive,
    what [render] draws on a reachable object between the fill and the
    update is blits only, one per marked cell and one
    for the agent: a sprite is blitted at (x, y) exactly when (x, y) is
    the corner (col * 125, row * 125) of a cell of the grid and the
    sprite is that of the cell's symbol ("#", "S", "G" or "P"), or the
    agent's and the agent stands there.  Every blit lies inside the
    window of num_cols * 125 by num_rows * 125 pixels. *)
Theorem render_draws_each_cell
  (maze0 : list (list string)) (e : MazeGameEnv)
  (load : string -> load_outcome) (screen : list draw) :
  reachable maze0 e ->
  (forall i, load (image_path i) = Loaded) ->
  exists ds,
    render load true e screen =
      Ok (screen ++ Fill 255 255 255 :: ds ++ [Update], None) /\
    (forall d, In d ds -> exists i x y, d = Blit i x y) /\
    (forall i x y,
        In (Blit i x y) ds <->
        exists row col cell,
          in_bounds e (row, col) /\
          np.getitem (maze e) row col = Ok cell /\
          x = col * cell_size /\ y = row * cell_size /\
          (tile_image cell = Some i \/
           (i = agent_img /\ current_pos e = (row, col)))) /\
    (forall i x y,
        In (Blit i x y) ds ->
        0 <= x /\ x + cell_size <= num_cols e * cell_size /\
        0 <= y /\ y + cell_size <= num_rows e * cell_size).
Proof.
  intros R Hfiles. pose proof (reachable_wf _ _ R) as W.
  eexists. split; [apply (render_reachable maze0); assumption|].
  assert (Hin : forall i x y,
             In (Blit i x y)
                (flat_map
                   (fun r => flat_map (fun c => cell_draws e r c (cell_at e r c))
                                      (range (num_cols e)))
                   (range (num_rows e))) <->
             exists row col cell,
               in_bounds e (row, col) /\
               np.getitem (maze e) row col = Ok cell /\
               x = col * cell_size /\ y = row * cell_size /\
               (tile_image cell = Some i \/
                (i = agent_img /\ current_pos e = (row, col)))).
  { intros i x y. rewrite in_flat_map. split.
    - intros (r & Hr & H). rewrite in_flat_map in H.
      destruct H as (c & Hc & H). apply range_In in Hr, Hc.
      apply cell_draws_In in H. destruct H as (Hx & Hy & H).
      exists r, c, (cell_at e r c).
      assert (B : in_bounds e (r, c)) by (split; assumption).
      destruct (render_cell_wf e r c W B) as [G _]. auto.
    - intros (r & c & cell & [Hr Hc] & G & Hx & Hy & H). simpl in Hr, Hc.
      exists r. split; [apply range_In; exact Hr|].
      rewrite in_flat_map. exists c. split; [apply range_In; exact Hc|].
      apply cell_draws_In. unfold cell_at. rewrite G. auto. }
  split; [|split; [exact Hin|]].
  - intros d H. rewrite in_flat_map in H. destruct H as (r & _ & H).
    rewrite in_flat_map in H. destruct H as (c & _ & H).
    eapply cell_draws_blits; eauto.
  - intros i x y H. apply Hin in H.
    destruct H as (r & c & cell & [Hr Hc] & _ & -> & -> & _).
    simpl in Hr, Hc. unfold cell_size. lia.
Qed.

(** X14.  The try block of [render] stops at the first sprite, in
    loading order (obstacle, start, goal, pit, agent), whose load raises.
    If that load raises FileNotFoundError, the handler returns with the
    screen untouched (no fill, no blit, no display update), naming that
    sprite; if it raises anything else, the exception leaves [render].
    So it is on any object, alive display or not. *)
Theorem render_stops_at_first_failed_load
  (load : string -> load_outcome) (alive : bool) (e : MazeGameEnv)
  (screen : list draw) (before after : list image) (i : image) :
  load_order = before ++ i :: after ->
  (forall j, In j before -> load (image_path j) = Loaded) ->
  load (image_path i) <> Loaded ->
  render load alive e screen =
    match load (image_path i) with
    | FileNotFound => Ok (screen, Some i)
    | _ => Raise PygameError
    end.
Proof.
  intros Hsplit Hb Hi. unfold render.
  rewrite Hsplit, (first_failure_at load before after i Hb Hi).
  destruct (load (image_path i)); [congruence|reflexivity|reflexivity].
Qed.

End Environment.

(** * The properties at concrete grids *)

Lemma env3_init : __init__ sdl grid3 = Ok env3.
Proof. reflexivity. Qed.

Lemma env3_reachable : reachable sdl grid3 env3.
Proof. apply reach_init, env3_init. Qed.

(** C1 at the scenario grid: one move down from the start. *)
Lemma step_outcome_priority_witness :
  reachable sdl grid3 env3 /\
  exists e' r,
    step env3 1 = Ok (e', r) /\ current_pos e' = (1, 0) /\
    reward r = (-0.01)%Q /\ metadata r = continue_exploring.
Proof.
  split; [exact env3_reachable|].
  destruct (step_outcome_priority sdl grid3 env3 1 env3_reachable)
    as (e' & r & E & _ & _ & _ & H & _).
  exists e', r. split; [exact E|].
  vm_compute in E. injection E as <- <-.
  split; [reflexivity|]. split; reflexivity.
Defined.

(** C3 at the scenario grid: from the start, right runs into the
    obstacle at (0,1). *)
Lemma blocked_move_absorbed_witness :
  on_obstacle env3 (new_pos env3 3) /\
  exists e' r,
    step env3 3 = Ok (e', r) /\
    current_pos e' = (0, 0) /\ steps e' = 1 /\
    reward r = (-0.01)%Q /\ metadata r = continue_exploring.
Proof.
  assert (Hobs : on_obstacle env3 (new_pos env3 3)).
  { split; [split; vm_compute; split; congruence | reflexivity]. }
  split; [exact Hobs|].
  assert (Hg : current_pos env3 <> goal_pos env3) by (vm_compute; congruence).
  assert (Hp : current_pos env3 <> pit_pos env3) by (vm_compute; congruence).
  destruct (blocked_move_absorbed sdl grid3 env3 3 env3_reachable Hg Hp (or_intror Hobs))
    as (e' & r & E & Hcur & Hs & Hlt & _).
  exists e', r. split; [exact E|]. split; [exact Hcur|]. split; [exact Hs|].
  destruct Hlt as (Hr & _ & _ & Hi); [vm_compute; reflexivity|].
  split; assumption.
Defined.

(** C7 at the scenario grid, with action 7. *)
Lemma unknown_action_moves_nothing_witness :
  new_pos env3 7 = (0, 0) /\
  exists e' r,
    step env3 7 = Ok (e', r) /\
    current_pos e' = (0, 0) /\ steps e' = 1 /\ r = outcome e'.
Proof.
  apply (unknown_action_moves_nothing sdl grid3 env3 7 env3_reachable). lia.
Defined.

(** C8 at the scenario grid, after one reset. *)
Lemma layout_never_changes_witness :
  maze (fst (reset env3 (Some 5%N))) = grid3 /\
  start_pos (fst (reset env3 (Some 5%N))) = (0, 0) /\
  max_steps (fst (reset env3 (Some 5%N))) = 200.
Proof.
  destruct (layout_never_changes sdl grid3 env3 (fst (reset env3 (Some 5%N))) env3_init
              (reach_reset sdl grid3 env3 (Some 5%N) env3_reachable))
    as ((H1 & H2 & _ & _ & _ & _ & H7) & _).
  split; [exact H1|]. split; [exact H2|exact H7].
Defined.

(** C9 at the scenario grid, after the blocked move to the right. *)
Lemma current_position_always_valid_witness :
  exists e' r,
    step env3 3 = Ok (e', r) /\
    in_bounds e' (current_pos e') /\ off_obstacle e' (current_pos e').
Proof.
  exists (set_steps env3 1), (outcome (set_steps env3 1)).
  split; [reflexivity|].
  apply (current_position_always_valid sdl grid3).
  apply (reach_step sdl grid3 env3 3 _ (outcome (set_steps env3 1)) env3_reachable).
  reflexivity.
Defined.

(** C6 at the scenario grid, after two moves. *)
Lemma reset_restores_start_witness :
  exists e,
    run env3 [1; 3] = Ok (e, [outcome (set_steps (set_current_pos env3 (1, 0)) 1);
                              outcome e]) /\
    current_pos e = (1, 1) /\ steps e = 2 /\
    current_pos (fst (reset e None)) = (0, 0) /\
    steps (fst (reset e None)) = 0 /\
    snd (reset e None) = ((S754_zero false, S754_zero false), []).
Proof.
  pose (e1 := set_steps (set_current_pos env3 (1, 0)) 1).
  pose (e2 := set_steps (set_current_pos e1 (1, 1)) 2).
  assert (R : reachable sdl grid3 e2).
  { apply (reach_step sdl grid3 e1 3 e2 (outcome e2)); [|reflexivity].
    apply (reach_step sdl grid3 env3 1 e1 (outcome e1)); [|reflexivity].
    exact env3_reachable. }
  exists e2. split; [reflexivity|]. split; [reflexivity|]. split; [reflexivity|].
  destruct (reset_restores_start sdl grid3 env3 e2 None env3_init R)
    as (H1 & H2 & H3 & H4).
  split; [exact H1|]. split; [exact H2|].
  rewrite (surjective_pairing (snd (reset e2 None))), H3, H4. reflexivity.
Defined.

(** C2 at the scenario grid: 200 moves up against the top wall. *)
Lemma step_count_and_time_limit_witness :
  exists e' rs r,
    run (fst (reset env3 None)) (repeat 0 200) = Ok (e', rs) /\
    steps e' = 200 /\
    nth_error rs 199 = Some r /\
    reward r = 0.0%Q /\ terminated r = true /\ truncated r = true /\
    metadata r = time_limit.
Proof.
  destruct (step_count_and_time_limit sdl grid3 env3 None (repeat 0 200) env3_reachable)
    as (_ & e' & rs & E & Hs & _ & H).
  exists e', rs.
  exists (mkResult (S754_zero false, S754_zero false) 0.0 true true time_limit).
  split; [exact E|]. split; [exact Hs|].
  vm_compute in E. injection E as _ <-.
  split; [reflexivity|]. repeat split.
Defined.

(** C2 as stated fails on the scenario grid: in a run of 200 steps
    after a reset, none of the first 199 ends the episode, and the
    200th enters the goal; it returns reward 1.0 and truncated = false,
    not the time-limit outcome. *)
Lemma goal_on_the_200th_step :
  __init__ sdl grid3 = Ok env3 /\
  List.length late_goal_actions = 200%nat /\
  exists e' rs r,
    run (fst (reset env3 None)) late_goal_actions = Ok (e', rs) /\
    steps e' = 200 /\
    forallb (fun q => negb (terminated q)) (firstn 199 rs) = true /\
    nth_error rs 199 = Some r /\
    reward r = 1.0%Q /\ terminated r = true /\ truncated r = false /\
    metadata r = goal_reached /\
    metadata r <> time_limit.
Proof.
  split; [reflexivity|]. split; [reflexivity|].
  destruct (run (fst (reset env3 None)) late_goal_actions) as [[e' rs]|x] eqn:E;
    vm_compute in E; [|discriminate].
  exists e', rs.
  exists (mkResult (S754_zero false, S754_finite false 8388608 (-23))
                   1.0 true false goal_reached).
  injection E as <- <-.
  split; [reflexivity|]. split; [reflexivity|]. split; [vm_compute; reflexivity|].
  split; [reflexivity|]. repeat split. discriminate.
Qed.


(** C4 fails on a grid with a single row: [num_rows - 1] is 0, the row
    component of every observation is 0/0, which float32 division
    makes NaN, and NaN is not in [0, 1].  So it is for the observation
    [reset] returns and for the one [step] returns. *)
Theorem single_row_observation_is_nan :
  __init__ sdl grid_one_row = Ok env_one_row /\
  fst (snd (reset env_one_row None)) = (S754_nan, S754_zero false) /\
  np.in_unit (fst (fst (snd (reset env_one_row None)))) = false /\
  exists e' r,
    step env_one_row 0 = Ok (e', r) /\
    obs r = (S754_nan, S754_zero false) /\
    np.in_unit (fst (obs r)) = false.
Proof.
  split; [reflexivity|]. split; [reflexivity|]. split; [reflexivity|].
  eexists; eexists. split; [reflexivity|]. split; reflexivity.
Qed.

(** X1 at the scenario grid. *)
Lemma marked_positions_distinct_witness :
  start_pos env3 <> goal_pos env3 /\
  start_pos env3 <> pit_pos env3 /\
  goal_pos env3 <> pit_pos env3.
Proof.
  apply (marked_positions_distinct sdl grid3 env3 env3_reachable).
Defined.

(** X2 on the grid with two start cells: the second, at (1,1), comes
    after the one taken. *)
Lemma first_marked_cell_is_taken_witness :
  np.getitem grid_two_starts 1 1 = Ok "S"%string /\
  row_major_le (start_pos env_two_starts) (1, 1).
Proof.
  split; [reflexivity|].
  apply (first_marked_cell_is_taken sdl grid_two_starts env_two_starts 1 1 eq_refl).
  - split; simpl; lia.
  - reflexivity.
Defined.

(** X3 at the scenario grid: the cell (0,1) holds "#". *)
Lemma valid_position_iff_witness :
  _is_valid_position env3 (0, 1) = Ok false /\
  _is_valid_position env3 (1, 1) = Ok true /\
  _is_valid_position env3 (-1, 0) = Ok false.
Proof.
  destruct (valid_position_iff sdl grid3 env3 (0, 1) env3_reachable) as (b & Hb & _).
  split; [|split; reflexivity].
  rewrite Hb. vm_compute in Hb. symmetry. exact Hb.
Defined.

(** X4 at the scenario grid: down from the start. *)
Lemma free_move_applied_witness :
  exists e' r,
    step env3 1 = Ok (e', r) /\ current_pos e' = (1, 0) /\ steps e' = 1.
Proof.
  apply (free_move_applied sdl grid3 env3 1 env3_reachable).
  - split; vm_compute; split; congruence.
  - exists " "%string. split; [reflexivity|discriminate].
Defined.

(** X5 at the scenario grid. *)
Lemma step_moves_one_cell_at_most_witness :
  Z.abs (fst (1, 0) - fst (current_pos env3)) +
  Z.abs (snd (1, 0) - snd (current_pos env3)) <= 1.
Proof.
  apply (step_moves_one_cell_at_most sdl grid3 env3
           (set_steps (set_current_pos env3 (1, 0)) 1) 1
           (outcome (set_steps (set_current_pos env3 (1, 0)) 1))
           env3_reachable).
  - vm_compute. reflexivity.
  - vm_compute. reflexivity.
  - reflexivity.
Defined.

(** X6 at the scenario grid: down from the start, then up. *)
Lemma accepted_move_reversible_witness :
  exists e2 r2,
    step (set_steps (set_current_pos env3 (1, 0)) 1) 0 = Ok (e2, r2) /\
    current_pos e2 = (0, 0) /\ steps e2 = 2.
Proof.
  apply (accepted_move_reversible sdl grid3 env3
           (set_steps (set_current_pos env3 (1, 0)) 1) 1
           (outcome (set_steps (set_current_pos env3 (1, 0)) 1))
           env3_reachable).
  - vm_compute. reflexivity.
  - vm_compute. reflexivity.
  - reflexivity.
  - reflexivity.
Defined.

(** X7 at the scenario grid: 201 moves up against the top wall. *)
Lemma episode_ends_by_step_200_witness :
  exists e' rs r,
    run (fst (reset env3 None)) (repeat 0 201) = Ok (e', rs) /\
    nth_error rs 200 = Some r /\
    terminated r = true.
Proof.
  destruct (run_reachable sdl grid3 (repeat 0 201) (fst (reset env3 None))
              (reach_reset sdl grid3 env3 None env3_reachable))
    as (e' & rs & E & _ & _ & Hl & _).
  rewrite repeat_length in Hl.
  destruct (nth_error rs 200) as [r|] eqn:En;
    [|apply nth_error_None in En; lia].
  exists e', rs, r. split; [exact E|]. split; [exact En|].
  apply (episode_ends_by_step_200 sdl grid3 env3 e' None (repeat 0 201) rs 200 r
           env3_reachable E En).
  lia.
Defined.

(** X8 at the scenario grid: the first move down is not terminated. *)
Lemma result_flags_consistent_witness :
  reward (outcome (set_steps (set_current_pos env3 (1, 0)) 1)) = (-0.01)%Q /\
  steps (set_steps (set_current_pos env3 (1, 0)) 1) < 200.
Proof.
  destruct (result_flags_consistent sdl grid3 env3
              (set_steps (set_current_pos env3 (1, 0)) 1) 1
              (outcome (set_steps (set_current_pos env3 (1, 0)) 1))
              env3_reachable eq_refl) as [_ H].
  destruct (H eq_refl) as (_ & H1 & H2 & _). split; assumption.
Defined.

Lemma env3_at_goal_reachable : reachable sdl grid3 env3_at_goal.
Proof.
  destruct (run_reachable sdl grid3 [1; 3; 3; 0] env3 env3_reachable)
    as (e' & rs & E & R & _).
  vm_compute in E. injection E as <- _. exact R.
Qed.

(** X9 at the scenario grid: on the goal after four moves, one more
    move up, off the grid. *)
Lemma terminal_outcome_repeats_witness :
  current_pos env3_at_goal = goal_pos env3_at_goal /\
  exists e' r,
    step env3_at_goal 0 = Ok (e', r) /\ steps e' = 5 /\
    reward r = 1.0%Q /\ terminated r = true /\ metadata r = goal_reached.
Proof.
  split; [reflexivity|].
  destruct (terminal_outcome_repeats sdl grid3 env3_at_goal 0 env3_at_goal_reachable
              (or_introl eq_refl)) as (e' & r & E & Hs & Hg & _).
  exists e', r. split; [exact E|]. split; [exact Hs|].
  destruct (Hg eq_refl) as (H1 & H2 & _ & H4). auto.
Defined.

(** X10 on the single-row grid. *)
Lemma single_line_grid_gives_nan_witness :
  fst (fst (snd (reset env_one_row (Some 3%N)))) = S754_nan.
Proof.
  apply (single_line_grid_gives_nan sdl grid_one_row env_one_row
           (reach_init sdl grid_one_row env_one_row eq_refl)).
  reflexivity.
Defined.

(** X11 at the scenario grid: a fresh object and one that has moved
    and was reset with a seed. *)
Lemma episode_depends_on_actions_only_witness :
  exists a b rs,
    run (fst (reset env3 None)) [1; 3] = Ok (a, rs) /\
    run (fst (reset env3_at_goal (Some 7%N))) [1; 3] = Ok (b, rs) /\
    current_pos a = current_pos b /\
    steps a = steps b.
Proof.
  apply (episode_depends_on_actions_only sdl grid3 env3 env3_at_goal None (Some 7%N)
           [1; 3] env3_reachable env3_at_goal_reachable).
Defined.

(** A file system where every sprite loads. *)
Lemma all_loaded : forall i : image, (fun _ : string => Loaded) (image_path i) = Loaded.
Proof. reflexivity. Qed.

(** X12 at the scenario grid, on an empty screen. *)
Lemma render_draws_agent_once_witness :
  exists ds,
    render (fun _ => Loaded) true env3 [] =
      Ok (Fill 255 255 255 :: ds ++ [Update], None) /\
    filter is_agent_blit ds = [Blit agent_img 0 0].
Proof.
  apply (render_draws_agent_once sdl grid3 env3 (fun _ => Loaded) []
           env3_reachable all_loaded).
Defined.

(** X13 at the scenario grid: the obstacle of cell (0,1) is drawn at
    pixel (125, 0). *)
Lemma render_draws_each_cell_witness :
  exists ds,
    render (fun _ => Loaded) true env3 [] =
      Ok (Fill 255 255 255 :: ds ++ [Update], None) /\
    In (Blit obstacle_img 125 0) ds.
Proof.
  destruct (render_draws_each_cell sdl grid3 env3 (fun _ => Loaded) []
              env3_reachable all_loaded) as (ds & E & _ & Hin & _).
  exists ds. split; [exact E|]. apply Hin.
  exists 0, 1, "#"%string. repeat split; try reflexivity; simpl; lia || auto.
Defined.

(** X14 at the scenario grid, with the goal's and the agent's files
    both missing: the goal's, loaded first, is the one named. *)
Lemma render_stops_at_first_failed_load_witness :
  render (fun p => if String.eqb p "utils/goal.png" then FileNotFound
                   else if String.eqb p "utils/spider.png" then FileNotFound
                   else Loaded)
         true env3 [Update] =
    Ok ([Update], Some goal_img).
Proof.
  apply (render_stops_at_first_failed_load
           (fun p => if String.eqb p "utils/goal.png" then FileNotFound
                     else if String.eqb p "utils/spider.png" then FileNotFound
                     else Loaded)
           true env3 [Update] [obstacle_img; start_img] [pit_img; agent_img]
           goal_img eq_refl).
  - intros j [<-|[<-|[]]]; reflexivity.
  - discriminate.
Defined.

(** ** The array and the window at their edges *)

(** A start cell padded with a NUL is a start cell: the array stores
    and compares it as "S". *)
Lemma padded_start_is_start :
  __init__ sdl grid_padded_start = Ok env_one_row.
Proof. reflexivity. Qed.

(** A grid whose window the display refuses is not built. *)
Lemma wide_grid_refused :
  __init__ sdl grid_wide = Raise PygameError /\
  __init__ (fun _ _ => true) grid_wide =
    Ok (mkEnv grid_wide (0, 0) (0, 1) (0, 2) (0, 0) 1 132 200 0 None).
Proof. split; vm_compute; reflexivity. Qed.
